(** * The InfluxDB 0.8 importer ([importer/v8/importer.go]), embedded in Rocq.

    The importer reads a line-oriented dump in two phases ([processDDL], then
    [processDML]), collects data lines in a batch of [batchSize] entries and
    sends every batch through a rate-throttled [batchWrite].  The Go code is
    rendered as pure functions over an explicit importer record and an
    explicit world (clock, transport, log and standard output), driven by an
    environment that fixes how the outside answers. *)

From Stdlib Require Import ZArith List String Ascii Bool Lia DecimalString.
Import ListNotations.
Local Open Scope string_scope.
Local Open Scope Z_scope.

(** ** Go's [int]: 64-bit two's complement *)

Module GoInt.

Definition int_min : Z := - 2 ^ 63.
Definition int_max : Z := 2 ^ 63 - 1.

(** Arithmetic on [int] wraps around silently. *)
Definition wrap (z : Z) : Z := (z + 2 ^ 63) mod 2 ^ 64 - 2 ^ 63.

Definition in_range (z : Z) : Prop := int_min <= z <= int_max.

(** [fmt]'s [%d] verb. *)
Definition Itoa (z : Z) : string := NilZero.string_of_int (Z.to_int z).

End GoInt.
Import GoInt.

(** ** The functions of Go's [strings] package that the importer calls.
    A Go string is a sequence of bytes, here a [string] of 8-bit [ascii]. *)

Module GoStrings.

Definition byte (n : N) : ascii := ascii_of_N n.

(** The line feed, Go's ["\n"]. *)
Definition newline : string := String (byte 10) EmptyString.

(** [strings.HasPrefix(s, prefix)] *)
Definition HasPrefix (s prefix : string) : bool := String.prefix prefix s.

(** [strings.Join(elems, sep)] *)
Definition Join (elems : list string) (sep : string) : string :=
  String.concat sep elems.

(** [strings.Split(s, sep)] for a separator of one byte, the only form the
    importer uses: the fields between the occurrences of [sep], one more
    than there are occurrences. *)
Fixpoint Split (s : string) (sep : ascii) : list string :=
  match s with
  | EmptyString => [EmptyString]
  | String c s' =>
      if Ascii.eqb c sep then EmptyString :: Split s' sep
      else match Split s' sep with
           | field :: fields => String c field :: fields
           | [] => [String c EmptyString]
           end
  end.

(** UTF-8 encoding of a code point below U+10000. *)
Definition utf8 (cp : N) : string :=
  if (cp <? 128)%N then String (byte cp) EmptyString
  else if (cp <? 2048)%N then
    String (byte (192 + cp / 64)%N)
      (String (byte (128 + cp mod 64)%N) EmptyString)
  else
    String (byte (224 + cp / 4096)%N)
      (String (byte (128 + (cp / 64) mod 64)%N)
         (String (byte (128 + cp mod 64)%N) EmptyString)).

(** The code points for which [unicode.IsSpace] holds: tab, line feed,
    vertical tab, form feed, carriage return, space, U+0085, U+00A0 and the
    rest of the White_Space property. *)
Definition white_space : list N :=
  [9; 10; 11; 12; 13; 32; 133; 160; 5760;
   8192; 8193; 8194; 8195; 8196; 8197; 8198; 8199; 8200; 8201; 8202;
   8232; 8233; 8239; 8287; 12288]%N.

Definition rev_string (s : string) : string :=
  string_of_list_ascii (rev (list_ascii_of_string s)).

(** What is left of [s] after one leading sequence of [seqs], if it has one. *)
Fixpoint strip_one (seqs : list string) (s : string) : option string :=
  match seqs with
  | [] => None
  | q :: seqs' =>
      if String.prefix q s
      then Some (substring (String.length q) (String.length s - String.length q) s)
      else strip_one seqs' s
  end.

Fixpoint strip_all (fuel : nat) (seqs : list string) (s : string) : string :=
  match fuel with
  | O => s
  | S fuel' =>
      match strip_one seqs s with
      | Some rest => strip_all fuel' seqs rest
      | None => s
      end
  end.

Definition TrimLeftSpace (s : string) : string :=
  strip_all (String.length s) (map utf8 white_space) s.

Definition TrimRightSpace (s : string) : string :=
  rev_string
    (strip_all (String.length s)
       (map (fun cp => rev_string (utf8 cp)) white_space) (rev_string s)).

(** [strings.TrimSpace(s)]: [s] without its leading and trailing white
    space.  A white-space rune is a valid UTF-8 sequence, decoded the same
    from either end, so trimming runes is trimming these byte sequences. *)
Definition TrimSpace (s : string) : string :=
  TrimRightSpace (TrimLeftSpace s).

End GoStrings.
Import GoStrings.

(** ** Go slices of strings: the elements and the capacity of the backing array *)

Module GoSlice.

Record slice : Type := { elems : list string; cap : nat }.

(** [make([]string, 0, n)] *)
Definition make0 (n : nat) : slice := {| elems := []; cap := n |}.

Definition len (s : slice) : Z := Z.of_nat (List.length (elems s)).

(** [append(s, x)]: in place while the capacity allows, otherwise into a
    new backing array whose capacity [grow] chooses. *)
Definition append (grow : nat -> nat) (s : slice) (x : string) : slice :=
  if (List.length (elems s) <? cap s)%nat
  then {| elems := elems s ++ [x]; cap := cap s |}
  else {| elems := elems s ++ [x]; cap := grow (S (List.length (elems s))) |}.

(** [s[:0]] *)
Definition reslice0 (s : slice) : slice := {| elems := []; cap := cap s |}.

End GoSlice.
Import GoSlice.

(** ** The importer's data *)

(** [const batchSize = 5000] *)
Definition batchSize : Z := 5000.

(** The fields of the embedded [client.Config] that the importer reads or
    writes. *)
Record ClientConfig : Type := {
  UserAgent : string;
  Precision : string;
  WriteConsistency : string
}.

Record Config : Type := {
  Path : string;
  Version : string;
  Compressed : bool;
  PPS : Z;
  DestinationDatabase : string;
  RetentionPolicy : string;
  clientConfig : ClientConfig
}.

(** An instant of the clock and a [time.Duration], both in nanoseconds. *)
Definition Time : Type := Z.
Definition Duration : Type := Z.

(** The [Importer] struct.  Its [client] and its [throttle] ticker live in
    the world below. *)
Record Importer : Type := {
  database : string;
  retentionPolicy : string;
  config : Config;
  batch : slice;
  totalInserts : Z;
  failedInserts : Z;
  totalCommands : Z;
  throttlePointsWritten : Z;
  lastWrite : Time;
  createDatabaseQuery : string
}.

Definition set_database (i : Importer) (v : string) : Importer :=
  {| database := v; retentionPolicy := retentionPolicy i; config := config i;
     batch := batch i; totalInserts := totalInserts i;
     failedInserts := failedInserts i; totalCommands := totalCommands i;
     throttlePointsWritten := throttlePointsWritten i;
     lastWrite := lastWrite i; createDatabaseQuery := createDatabaseQuery i |}.

Definition set_retentionPolicy (i : Importer) (v : string) : Importer :=
  {| database := database i; retentionPolicy := v; config := config i;
     batch := batch i; totalInserts := totalInserts i;
     failedInserts := failedInserts i; totalCommands := totalCommands i;
     throttlePointsWritten := throttlePointsWritten i;
     lastWrite := lastWrite i; createDatabaseQuery := createDatabaseQuery i |}.

Definition set_batch (i : Importer) (v : slice) : Importer :=
  {| database := database i; retentionPolicy := retentionPolicy i;
     config := config i; batch := v; totalInserts := totalInserts i;
     failedInserts := failedInserts i; totalCommands := totalCommands i;
     throttlePointsWritten := throttlePointsWritten i;
     lastWrite := lastWrite i; createDatabaseQuery := createDatabaseQuery i |}.

Definition set_totalInserts (i : Importer) (v : Z) : Importer :=
  {| database := database i; retentionPolicy := retentionPolicy i;
     config := config i; batch := batch i; totalInserts := v;
     failedInserts := failedInserts i; totalCommands := totalCommands i;
     throttlePointsWritten := throttlePointsWritten i;
     lastWrite := lastWrite i; createDatabaseQuery := createDatabaseQuery i |}.

Definition set_failedInserts (i : Importer) (v : Z) : Importer :=
  {| database := database i; retentionPolicy := retentionPolicy i;
     config := config i; batch := batch i; totalInserts := totalInserts i;
     failedInserts := v; totalCommands := totalCommands i;
     throttlePointsWritten := throttlePointsWritten i;
     lastWrite := lastWrite i; createDatabaseQuery := createDatabaseQuery i |}.

Definition set_totalCommands (i : Importer) (v : Z) : Importer :=
  {| database := database i; retentionPolicy := retentionPolicy i;
     config := config i; batch := batch i; totalInserts := totalInserts i;
     failedInserts := failedInserts i; totalCommands := v;
     throttlePointsWritten := throttlePointsWritten i;
     lastWrite := lastWrite i; createDatabaseQuery := createDatabaseQuery i |}.

Definition set_throttlePointsWritten (i : Importer) (v : Z) : Importer :=
  {| database := database i; retentionPolicy := retentionPolicy i;
     config := config i; batch := batch i; totalInserts := totalInserts i;
     failedInserts := failedInserts i; totalCommands := totalCommands i;
     throttlePointsWritten := v;
     lastWrite := lastWrite i; createDatabaseQuery := createDatabaseQuery i |}.

Definition set_lastWrite (i : Importer) (v : Time) : Importer :=
  {| database := database i; retentionPolicy := retentionPolicy i;
     config := config i; batch := batch i; totalInserts := totalInserts i;
     failedInserts := failedInserts i; totalCommands := totalCommands i;
     throttlePointsWritten := throttlePointsWritten i;
     lastWrite := v; createDatabaseQuery := createDatabaseQuery i |}.

Definition set_createDatabaseQuery (i : Importer) (v : string) : Importer :=
  {| database := database i; retentionPolicy := retentionPolicy i;
     config := config i; batch := batch i; totalInserts := totalInserts i;
     failedInserts := failedInserts i; totalCommands := totalCommands i;
     throttlePointsWritten := throttlePointsWritten i;
     lastWrite := lastWrite i; createDatabaseQuery := v |}.

(** [NewImporter(config)]: the user agent is filled in, the batch is empty
    with room for [batchSize] lines, every other field has Go's zero value. *)
Definition NewImporter (c : Config) : Importer :=
  {| database := EmptyString;
     retentionPolicy := EmptyString;
     config :=
       {| Path := Path c; Version := Version c; Compressed := Compressed c;
          PPS := PPS c; DestinationDatabase := DestinationDatabase c;
          RetentionPolicy := RetentionPolicy c;
          clientConfig :=
            {| UserAgent := "influxDB importer/" ++ Version c;
               Precision := Precision (clientConfig c);
               WriteConsistency := WriteConsistency (clientConfig c) |} |};
     batch := make0 (Z.to_nat batchSize);
     totalInserts := 0;
     failedInserts := 0;
     totalCommands := 0;
     throttlePointsWritten := 0;
     lastWrite := 0;
     createDatabaseQuery := EmptyString |}.

(** ** The world outside the importer *)

(** A [bufio.Scanner] over the input: the lines it has yet to deliver and
    the read error, if any, that [Err] reports once they are exhausted. *)
Record Scanner : Type := { tokens : list string; scan_err : option string }.

(** What the log receives. *)
Inductive logmsg : Type :=
| LogError (e : string)                        (* "error: %s\n" *)
| LogWriteError (e : string)                   (* "error writing batch: ", e *)
| LogStatus (processed : Z) (since : Duration) (* "Processed %d lines. ..." *)
| LogSummary (commands inserts failed : Z).    (* the three closing lines *)

(** What the importer does to the outside, in order. *)
Inductive event : Type :=
| EvNow (t : Time)                             (* a reading of the clock *)
| EvTick                                       (* [<-i.throttle.C] *)
| EvQuery (command db : string)                (* [client.Query] *)
| EvWrite (body db rp precision consistency : string) (err : option string)
                                               (* [client.WriteLineProtocol] *)
| EvLog (m : logmsg)
| EvStdout (s : string).                       (* [fmt.Println] *)

(** The answer of [client.Query]: an error, or a response that may carry one. *)
Inductive query_answer : Type :=
| QueryFailed (e : string)
| QueryResponse (e : option string).

Record World : Type := {
  clock_reads : nat;         (* readings of the clock so far *)
  writes : nat;              (* calls of [WriteLineProtocol] so far *)
  queries : nat;             (* calls of [Query] so far *)
  trace : list event         (* everything done so far, oldest first *)
}.

(** How the outside answers.  The importer is sequential, so an answer may
    depend on nothing but the number of the call and its arguments. *)
Record Env : Type := {
  now_at : nat -> Time;
  rate_of : Z -> Duration -> Z;
  write_err : nat -> string -> string -> string -> string -> string -> option string;
  query_answer_at : nat -> string -> string -> query_answer;
  growslice : nat -> nat;
  new_client_err : option string;
  ping_err : option string;
  client_addr : string;
  open_err : option string;
  gzip_err : option string;
  input : Scanner
}.

(** The result of running a piece of the importer: it returns, it panics, or
    the model gave up following the throttle. *)
Inductive outcome (A : Type) : Type :=
| Done (a : A)
| Panic (msg : string)
| OutOfFuel.
Arguments Done {A} a.
Arguments Panic {A} msg.
Arguments OutOfFuel {A}.

Definition bind {A B : Type} (m : outcome A) (k : A -> outcome B) : outcome B :=
  match m with
  | Done a => k a
  | Panic msg => Panic msg
  | OutOfFuel => OutOfFuel
  end.

Notation "x <- m ;; k" := (bind m (fun x => k))
  (at level 61, m at next level, right associativity).
Notation "' p <- m ;; k" := (bind m (fun p => k))
  (at level 61, p pattern, m at next level, right associativity).

(** ** The importer's operations *)

Section Importer.

Variable e : Env.

Definition emit (w : World) (ev : event) : World :=
  {| clock_reads := clock_reads w; writes := writes w; queries := queries w;
     trace := trace w ++ [ev] |}.

(** [time.Now()] *)
Definition time_Now (w : World) : Time * World :=
  let t := now_at e (clock_reads w) in
  (t, {| clock_reads := S (clock_reads w); writes := writes w;
         queries := queries w; trace := trace w ++ [EvNow t] |}).

(** [t.Sub(u)]: the difference, kept within the range of a [Duration]. *)
Definition Sub (t u : Time) : Duration :=
  Z.max int_min (Z.min int_max (t - u)).

(** [time.Since(t)] *)
Definition time_Since (w : World) (t : Time) : Duration * World :=
  let (now, w') := time_Now w in (Sub now t, w').

(** [i.client.WriteLineProtocol(body, db, rp, precision, consistency)] *)
Definition WriteLineProtocol (w : World)
    (body db rp precision consistency : string) : option string * World :=
  let err := write_err e (writes w) body db rp precision consistency in
  (err, {| clock_reads := clock_reads w; writes := S (writes w);
           queries := queries w;
           trace := trace w ++ [EvWrite body db rp precision consistency err] |}).

(** [func (i *Importer) execute(command string)] *)
Definition execute (i : Importer) (w : World) (command : string) : World :=
  let answer := query_answer_at e (queries w) command (database i) in
  let w := {| clock_reads := clock_reads w; writes := writes w;
              queries := S (queries w);
              trace := trace w ++ [EvQuery command (database i)] |} in
  match answer with
  | QueryFailed err => emit w (EvLog (LogError err))
  | QueryResponse (Some err) => emit w (EvLog (LogError err))
  | QueryResponse None => w
  end.

(** [func (i *Importer) queryExecutor(command string)] *)
Definition queryExecutor (i : Importer) (w : World) (command : string)
    : Importer * World :=
  let i := set_totalCommands i (wrap (totalCommands i + 1)) in
  (i, execute i w command).

(** The rate that [batchWrite] compares with the limit.  [since.Seconds()]
    is positive exactly when [since] is; the quotient itself is computed in
    floating point and truncated, which is left to the environment. *)
Definition currentPPS (points : Z) (since : Duration) : Z :=
  if 0 <? since then rate_of e points since else points.

(** The test [int(currentPPS) > i.config.PPS && i.config.PPS != 0]. *)
Definition over_limit (pps points : Z) (since : Duration) : bool :=
  (pps <? currentPPS points since) && negb (pps =? 0).

(** [func (i *Importer) batchWrite()].  The recursive call of the throttled
    branch consumes one unit of [fuel]. *)
Fixpoint batchWrite (fuel : nat) (i : Importer) (w : World)
    : outcome (Importer * World) :=
  match fuel with
  | O => OutOfFuel
  | S fuel' =>
      let i := set_throttlePointsWritten i
                 (wrap (throttlePointsWritten i + len (batch i))) in
      let (since, w) := time_Since w (lastWrite i) in
      if over_limit (PPS (config i)) (throttlePointsWritten i) since then
        let w := emit w EvTick in
        let i := set_throttlePointsWritten i
                   (wrap (throttlePointsWritten i - len (batch i))) in
        batchWrite fuel' i w
      else
        let (err, w) :=
          WriteLineProtocol w (Join (elems (batch i)) newline) (database i)
            (retentionPolicy i) (Precision (clientConfig (config i)))
            (WriteConsistency (clientConfig (config i))) in
        let (i, w) :=
          match err with
          | Some msg =>
              let w := emit w (EvLog (LogWriteError msg)) in
              let w := emit w (EvStdout (Join (elems (batch i)) newline ++ newline)) in
              (set_failedInserts i (wrap (failedInserts i + len (batch i))), w)
          | None =>
              (set_totalInserts i (wrap (totalInserts i + len (batch i))), w)
          end in
        let i := set_throttlePointsWritten i 0 in
        let (now, w) := time_Now w in
        Done (set_lastWrite i now, w)
  end.

(** [func (i *Importer) batchAccumulator(line string, start time.Time)] *)
Definition batchAccumulator (fuel : nat) (i : Importer) (w : World)
    (line : string) (start : Time) : outcome (Importer * World) :=
  let i := set_batch i (append (growslice e) (batch i) line) in
  if len (batch i) =? batchSize then
    '(i, w) <- batchWrite fuel i w ;;
    let i := set_batch i (reslice0 (batch i)) in
    let processed := wrap (totalInserts i + failedInserts i) in
    if Z.rem processed 100000 =? 0 then
      let (since, w) := time_Since w start in
      Done (i, emit w (EvLog (LogStatus processed since)))
    else Done (i, w)
  else Done (i, w).

(** The loop of [processDDL] over the lines the scanner delivers: the
    command captured so far, and what is left for the second phase. *)
Fixpoint scanDDL (lines : list string) (query : string) : string * list string :=
  match lines with
  | [] => (query, [])
  | line :: rest =>
      if HasPrefix line "# DML" then (query, rest)
      else if HasPrefix line "#" then scanDDL rest query
      else if String.eqb (TrimSpace line) EmptyString then scanDDL rest query
      else scanDDL rest line
  end.

(** [func (i *Importer) processDDL(scanner *bufio.Scanner)] *)
Definition processDDL (i : Importer) (scanner : Scanner) : Importer * Scanner :=
  let (query, rest) := scanDDL (tokens scanner) (createDatabaseQuery i) in
  (set_createDatabaseQuery i query,
   {| tokens := rest; scan_err := scan_err scanner |}).

(** [strings.TrimSpace(strings.Split(line, ":")[1])]; the index panics when
    the split has fewer than two fields. *)
Definition context_value (line : string) : outcome string :=
  match nth_error (Split line ":") 1 with
  | Some field => Done (TrimSpace field)
  | None => Panic "index out of range"
  end.

(** The loop of [processDML] over the lines the scanner delivers. *)
Fixpoint scanDML (fuel : nat) (dboverride rpoverride : string) (start : Time)
    (lines : list string) (i : Importer) (w : World)
    : outcome (Importer * World) :=
  match lines with
  | [] => Done (i, w)
  | line :: rest =>
      i <- (if String.eqb dboverride EmptyString
               && HasPrefix line "# CONTEXT-DATABASE:"
            then v <- context_value line ;; Done (set_database i v)
            else Done i) ;;
      i <- (if String.eqb rpoverride EmptyString
               && HasPrefix line "# CONTEXT-RETENTION-POLICY:"
            then v <- context_value line ;; Done (set_retentionPolicy i v)
            else Done i) ;;
      if HasPrefix line "#" then
        scanDML fuel dboverride rpoverride start rest i w
      else if String.eqb (TrimSpace line) EmptyString then
        scanDML fuel dboverride rpoverride start rest i w
      else
        '(i, w) <- batchAccumulator fuel i w line start ;;
        scanDML fuel dboverride rpoverride start rest i w
  end.

(** [func (i *Importer) processDML(scanner, dboverride, rpoverride)] *)
Definition processDML (fuel : nat) (i : Importer) (scanner : Scanner)
    (w : World) (dboverride rpoverride : string)
    : outcome (Importer * Scanner * World) :=
  let i := if negb (String.eqb dboverride EmptyString)
           then set_database
                  (set_createDatabaseQuery i ("CREATE DATABASE " ++ dboverride))
                  dboverride
           else i in
  let (i, w) := queryExecutor i w (createDatabaseQuery i) in
  let i := if negb (String.eqb rpoverride EmptyString)
           then set_retentionPolicy i rpoverride else i in
  let (start, w) := time_Now w in
  '(i, w) <- scanDML fuel dboverride rpoverride start (tokens scanner) i w ;;
  '(i, w) <- batchWrite fuel i w ;;
  Done (i, {| tokens := []; scan_err := scan_err scanner |}, w).

(** The deferred summary of [Import], printed when something was inserted. *)
Definition summary (i : Importer) (w : World) : World :=
  if 0 <? totalInserts i
  then emit w (EvLog (LogSummary (totalCommands i) (totalInserts i)
                        (failedInserts i)))
  else w.

(** [func (i *Importer) Import() error]: the error returned ([None] for
    [nil]) with the importer and the world it leaves behind. *)
Definition Import (fuel : nat) (i : Importer) (w : World)
    : outcome (option string * Importer * World) :=
  match new_client_err e with
  | Some err => Done (Some ("could not create client " ++ err), i, w)
  | None =>
  match ping_err e with
  | Some _ =>
      Done (Some ("failed to connect to " ++ client_addr e ++ newline), i, w)
  | None =>
  if String.eqb (Path (config i)) EmptyString
  then Done (Some "file argument required", i, w)
  else
  match open_err e with
  | Some err => Done (Some err, i, summary i w)
  | None =>
  match (if Compressed (config i) then gzip_err e else None) with
  | Some err => Done (Some err, i, summary i w)
  | None =>
      let (i, scanner) := processDDL i (input e) in
      let (now, w) := time_Now w in
      let i := set_lastWrite i now in
      '(i, scanner, w) <-
        processDML fuel i scanner w (DestinationDatabase (config i))
          (RetentionPolicy (config i)) ;;
      match scan_err scanner with
      | Some err =>
          Done (Some ("reading standard input: " ++ err), i, summary i w)
      | None =>
          if 0 <? failedInserts i then
            let plural := if 1 <? failedInserts i then "s were" else " was" in
            Done (Some (Itoa (failedInserts i) ++ " point" ++ plural
                        ++ " not inserted"), i, summary i w)
          else Done (None, i, summary i w)
      end
  end end end end.

End Importer.

(** ** Concrete surroundings, for running the importer on examples *)

Definition world0 : World :=
  {| clock_reads := 0; writes := 0; queries := 0; trace := [] |}.

(** A surrounding in which the clock advances by [step] nanoseconds from one
    reading to the next, the rate is the exact quotient rounded towards zero,
    the write number [n] fails when [fails n] holds, and nothing else goes
    wrong. *)
Definition sample_env (step : Z) (fails : nat -> bool) (lines : list string)
    : Env :=
  {| now_at := fun n => Z.of_nat n * step;
     rate_of := fun points since => Z.quot (points * 1000000000) since;
     write_err := fun n _ _ _ _ _ =>
                    if fails n then Some "write failed" else None;
     query_answer_at := fun _ _ _ => QueryResponse None;
     growslice := fun n => (2 * n)%nat;
     new_client_err := None;
     ping_err := None;
     client_addr := "localhost:8086";
     open_err := None;
     gzip_err := None;
     input := {| tokens := lines; scan_err := None |} |}.

Definition sample_config (pps : Z) (db rp : string) : Config :=
  {| Path := "dump.txt"; Version := "test"; Compressed := false; PPS := pps;
     DestinationDatabase := db; RetentionPolicy := rp;
     clientConfig := {| UserAgent := EmptyString; Precision := "ns";
                        WriteConsistency := "any" |} |}.

(** Lines of a second phase: a context line, two data lines, a blank line. *)
Definition sample_lines : list string :=
  ["# CONTEXT-DATABASE: foo"; "m,t=1 v=1 0"; "   "; "m,t=2 v=2 1"].

Definition sample_scanner : Scanner :=
  {| tokens := sample_lines; scan_err := None |}.

(** A whole dump: the schema section, the marker, three data lines. *)
Definition sample_dump : list string :=
  ["# DDL"; "CREATE DATABASE foo"; "# DML"; "# CONTEXT-DATABASE: foo";
   "m,t=1 v=1 0"; "m,t=2 v=2 1"; "m,t=3 v=3 2"].

(** A clock of one second per reading; every write is accepted. *)
Definition accepting_env : Env :=
  sample_env 1000000000 (fun _ => false) sample_dump.

(** The same clock; every write is refused. *)
Definition refusing_env : Env :=
  sample_env 1000000000 (fun _ => true) sample_dump.

(** A new importer limited to one point per second. *)
Definition sample_importer : Importer :=
  NewImporter (sample_config 1 EmptyString EmptyString).

(** The same with a database override. *)
Definition override_importer : Importer :=
  NewImporter (sample_config 1 "bar" EmptyString).

(** The importer with two lines in its batch. *)
Definition loaded_importer : Importer :=
  set_batch sample_importer
    {| elems := ["m,t=1 v=1 0"; "m,t=2 v=2 1"]; cap := Z.to_nat batchSize |}.

(** An importer without a limit, one line short of a full batch. *)
Definition nearly_full_importer : Importer :=
  set_batch (NewImporter (sample_config 0 EmptyString EmptyString))
    {| elems := repeat "m,t=1 v=1 0" 4999; cap := Z.to_nat batchSize |}.

(** The accepting surroundings with a scanner that ends on a read error. *)
Definition read_error_env : Env :=
  {| now_at := now_at refusing_env;
     rate_of := rate_of refusing_env;
     write_err := write_err refusing_env;
     query_answer_at := query_answer_at refusing_env;
     growslice := growslice refusing_env;
     new_client_err := None;
     ping_err := None;
     client_addr := client_addr refusing_env;
     open_err := None;
     gzip_err := None;
     input := {| tokens := sample_dump; scan_err := Some "unexpected EOF" |} |}.

(** Surroundings in which the server does not answer the ping. *)
Definition unreachable_env : Env :=
  {| now_at := now_at accepting_env;
     rate_of := rate_of accepting_env;
     write_err := write_err accepting_env;
     query_answer_at := query_answer_at accepting_env;
     growslice := growslice accepting_env;
     new_client_err := None;
     ping_err := Some "connection refused";
     client_addr := client_addr accepting_env;
     open_err := None;
     gzip_err := None;
     input := input accepting_env |}.

(** New importers: without a limit, with a negative limit, and with a
    retention-policy override. *)
Definition unlimited_importer : Importer :=
  NewImporter (sample_config 0 EmptyString EmptyString).

Definition negative_importer : Importer :=
  NewImporter (sample_config (-1) EmptyString EmptyString).

Definition policy_importer : Importer :=
  NewImporter (sample_config 0 EmptyString "weekly").

(** A second phase in which the context changes between two data lines. *)
Definition switching_scanner : Scanner :=
  {| tokens := ["# CONTEXT-DATABASE: early"; "m,t=1 v=1 0";
                "# CONTEXT-DATABASE: late";
                "# CONTEXT-RETENTION-POLICY: daily"; "m,t=2 v=2 1"];
     scan_err := None |}.

(** ** Vocabulary of the properties *)

(** A data line: neither a comment (it does not start with [#]) nor blank. *)
Definition is_data (line : string) : bool :=
  negb (HasPrefix line "#") && negb (String.eqb (TrimSpace line) EmptyString).

Definition count_data (lines : list string) : Z :=
  Z.of_nat (List.length (filter is_data lines)).


(** An event that is no query and, when it is a write, goes to database [d]. *)
Definition only_writes_to (d : string) (ev : event) : Prop :=
  match ev with
  | EvWrite _ db _ _ _ _ => db = d
  | EvQuery _ _ => False
  | _ => True
  end.

(** The text of [s] after its first [sep], all of it; the empty string when
    [s] has no [sep].  This follows the wording of the specification, not
    the code. *)
Fixpoint after_first (sep : ascii) (s : string) : string :=
  match s with
  | EmptyString => EmptyString
  | String c s' => if Ascii.eqb c sep then s' else after_first sep s'
  end.

(** Whether the byte [c] is absent from [s]. *)
Fixpoint free_of (c : ascii) (s : string) : bool :=
  match s with
  | EmptyString => true
  | String a s' => negb (Ascii.eqb a c) && free_of c s'
  end.

(** A run that did not return [Done] on concrete inputs is refuted by
    running it. *)
Ltac refute_run H := vm_compute in H; discriminate H.

Section Vocabulary.

Variable e : Env.

(** The count that a flush of [i] compares with the limit: the points
    written since the last write, the batch included. *)
Definition accumulated (i : Importer) : Z :=
  wrap (throttlePointsWritten i + len (batch i)).

(** Whether the rate check of a flush of [i] fails on the reading of the
    clock number [j] from now. *)
Definition throttled_at (i : Importer) (w : World) (j : nat) : bool :=
  over_limit e (PPS (config i)) (accumulated i)
    (Sub (now_at e (clock_reads w + j)) (lastWrite i)).

(** The world after [k] failed rate checks: [k] readings, a tick after each. *)
Fixpoint wait (k : nat) (w : World) : World :=
  match k with
  | O => w
  | S k' => wait k' (emit (snd (time_Now e w)) EvTick)
  end.

(** What [k] failed rate checks leave in the trace, the first of them on
    the reading number [n]. *)
Fixpoint wait_events (n k : nat) : list event :=
  match k with
  | O => []
  | S k' => EvNow (now_at e n) :: EvTick :: wait_events (S n) k'
  end.

(** The part of [batchWrite] after the rate check has passed. *)
Definition write_out (i : Importer) (w : World) : Importer * World :=
  let (err, w) :=
    WriteLineProtocol e w (Join (elems (batch i)) newline) (database i)
      (retentionPolicy i) (Precision (clientConfig (config i)))
      (WriteConsistency (clientConfig (config i))) in
  let (i, w) :=
    match err with
    | Some msg =>
        let w := emit w (EvLog (LogWriteError msg)) in
        let w := emit w (EvStdout (Join (elems (batch i)) newline ++ newline)) in
        (set_failedInserts i (wrap (failedInserts i + len (batch i))), w)
    | None =>
        (set_totalInserts i (wrap (totalInserts i + len (batch i))), w)
    end in
  let i := set_throttlePointsWritten i 0 in
  let (now, w) := time_Now e w in
  (set_lastWrite i now, w).

(** The answer of the transport to the write of [i]'s batch in world [w],
    and the event of that write. *)
Definition write_answer (i : Importer) (w : World) : option string :=
  write_err e (writes w) (Join (elems (batch i)) newline) (database i)
    (retentionPolicy i) (Precision (clientConfig (config i)))
    (WriteConsistency (clientConfig (config i))).

Definition the_write (i : Importer) (w : World) : event :=
  EvWrite (Join (elems (batch i)) newline) (database i) (retentionPolicy i)
    (Precision (clientConfig (config i)))
    (WriteConsistency (clientConfig (config i))) (write_answer i w).

(** What follows a write in the trace: nothing when it succeeded, the error
    in the log and the lines of the batch on standard output when it failed. *)
Definition failure_events (i : Importer) (err : option string) : list event :=
  match err with
  | Some msg => [EvLog (LogWriteError msg);
                 EvStdout (Join (elems (batch i)) newline ++ newline)]
  | None => []
  end.

(** What a line of the second phase does to the targets of the session
    before it is classified: the two tests on the context prefixes. *)
Definition apply_context (dboverride rpoverride line : string) (i : Importer)
    : outcome Importer :=
  i <- (if String.eqb dboverride EmptyString
           && HasPrefix line "# CONTEXT-DATABASE:"
        then v <- context_value line ;; Done (set_database i v)
        else Done i) ;;
  (if String.eqb rpoverride EmptyString
      && HasPrefix line "# CONTEXT-RETENTION-POLICY:"
   then v <- context_value line ;; Done (set_retentionPolicy i v)
   else Done i).

(** The importer, the world and the start time with which [processDML]
    enters its loop: the overrides are applied and the schema command is
    issued. *)
Definition dml_setup (i : Importer) (w : World) (dboverride rpoverride : string)
    : Importer * World * Time :=
  let i := if negb (String.eqb dboverride EmptyString)
           then set_database
                  (set_createDatabaseQuery i ("CREATE DATABASE " ++ dboverride))
                  dboverride
           else i in
  let (i, w) := queryExecutor e i w (createDatabaseQuery i) in
  let i := if negb (String.eqb rpoverride EmptyString)
           then set_retentionPolicy i rpoverride else i in
  let (start, w) := time_Now e w in
  (i, w, start).

(** The clock lets every flush through in the end: whatever the time of
    the last write, for every count up to a full batch some later reading
    passes the rate check. *)
Definition clock_releases (pps : Z) : Prop :=
  forall (n : nat) (points : Z) (last : Time),
    0 <= points <= batchSize ->
    exists k, over_limit e pps points (Sub (now_at e (n + k)) last) = false.

(** The importer between two flushes of a run: the rate window is reset and
    the batch has room. *)
Definition ready (i : Importer) : Prop :=
  throttlePointsWritten i = 0 /\ len (batch i) < batchSize.

End Vocabulary.

(** ** Further vocabulary: what a trace holds *)

Definition is_query (ev : event) : bool :=
  match ev with EvQuery _ _ => true | _ => false end.

Definition is_tick (ev : event) : bool :=
  match ev with EvTick => true | _ => false end.

Definition is_summary (ev : event) : bool :=
  match ev with EvLog (LogSummary _ _ _) => true | _ => false end.


(** The bodies of the writes of a trace, in order. *)
Definition write_bodies (tr : list event) : list string :=
  flat_map (fun ev => match ev with
                      | EvWrite body _ _ _ _ _ => [body]
                      | _ => []
                      end) tr.


(** An event that, when it is a write, carries the retention policy [rp]. *)
Definition writes_with_policy (rp : string) (ev : event) : Prop :=
  match ev with
  | EvWrite _ _ p _ _ _ => p = rp
  | _ => True
  end.

(** The target (database or retention policy) after one line of the second
    phase, as the two tests of [processDML] compute it: the trimmed second
    field of the line when there is no override and the line starts with
    [prefix], the current target otherwise. *)
Definition context_target (override prefix line current : string) : string :=
  if String.eqb override EmptyString && HasPrefix line prefix
  then match nth_error (Split line ":") 1 with
       | Some field => TrimSpace field
       | None => current
       end
  else current.


(** ** Go's [int] and the helper functions *)

Lemma wrap_in_range (z : Z) : in_range z -> wrap z = z.
Proof.
  unfold in_range, wrap, int_min, int_max. intros H.
  rewrite Z.mod_small; lia.
Qed.

Lemma wrap_range (z : Z) : in_range (wrap z).
Proof.
  unfold in_range, wrap, int_min, int_max.
  pose proof (Z.mod_pos_bound (z + 2 ^ 63) (2 ^ 64)). lia.
Qed.

Lemma wrap_wrap (z : Z) : wrap (wrap z) = wrap z.
Proof. apply wrap_in_range, wrap_range. Qed.

Lemma wrap_sub_add (a n : Z) : wrap (wrap (a - n) + n) = wrap a.
Proof.
  unfold wrap. f_equal.
  replace ((a - n + 2 ^ 63) mod 2 ^ 64 - 2 ^ 63 + n + 2 ^ 63)
    with ((a - n + 2 ^ 63) mod 2 ^ 64 + n) by lia.
  rewrite Zplus_mod_idemp_l. f_equal. lia.
Qed.

Lemma len_nonneg (s : slice) : 0 <= len s.
Proof. unfold len. lia. Qed.

Section BatchWrite.

Variable e : Env.

Lemma accumulated_retry (i : Importer) :
  accumulated
    (set_throttlePointsWritten i (wrap (accumulated i - len (batch i))))
  = accumulated i.
Proof.
  unfold accumulated at 1. cbn [set_throttlePointsWritten throttlePointsWritten batch].
  rewrite wrap_sub_add. unfold accumulated. apply wrap_wrap.
Qed.

Lemma write_out_throttle (i : Importer) (w : World) (v : Z) :
  write_out e (set_throttlePointsWritten i v) w = write_out e i w.
Proof.
  unfold write_out. cbn.
  destruct (write_err e _ _ _ _ _ _); reflexivity.
Qed.

(** One attempt of [batchWrite]: a reading of the clock, then either a tick
    and another attempt, or the write. *)
Lemma batchWrite_unfold (fuel : nat) (i : Importer) (w : World) :
  batchWrite e (S fuel) i w =
    if throttled_at e i w 0
    then batchWrite e fuel
           (set_throttlePointsWritten i (wrap (accumulated i - len (batch i))))
           (emit (snd (time_Now e w)) EvTick)
    else Done (write_out e i (snd (time_Now e w))).
Proof.
  unfold throttled_at. rewrite Nat.add_0_r.
  cbn [batchWrite]. unfold time_Since, time_Now. cbn.
  fold (accumulated i).
  destruct (over_limit e (PPS (config i)) (accumulated i) _); [reflexivity|].
  destruct (write_err e _ _ _ _ _ _); reflexivity.
Qed.

Lemma wait_counters (k : nat) (w : World) :
  clock_reads (wait e k w) = (clock_reads w + k)%nat
  /\ writes (wait e k w) = writes w
  /\ queries (wait e k w) = queries w
  /\ trace (wait e k w) = (trace w ++ wait_events e (clock_reads w) k)%list.
Proof.
  revert w. induction k as [|k IH]; intros w; cbn [wait wait_events].
  - rewrite Nat.add_0_r, app_nil_r. auto.
  - destruct (IH (emit (snd (time_Now e w)) EvTick)) as (Hc & Hw & Hq & Ht).
    rewrite Hc, Hw, Hq, Ht. cbn.
    rewrite <- !app_assoc. cbn. repeat split; lia.
Qed.

Lemma throttled_at_retry (i : Importer) (w : World) (j : nat) :
  throttled_at e
    (set_throttlePointsWritten i (wrap (accumulated i - len (batch i))))
    (emit (snd (time_Now e w)) EvTick) j
  = throttled_at e i w (S j).
Proof.
  unfold throttled_at. rewrite accumulated_retry. cbn.
  now rewrite Nat.add_succ_r.
Qed.

(** A flush that returns has failed the rate check some [k] times, passed it
    on the next reading and written the batch then. *)
Lemma batchWrite_Done_inv (fuel : nat) (i : Importer) (w : World)
    (r : Importer * World) :
  batchWrite e fuel i w = Done r ->
  exists k, (k < fuel)%nat
    /\ (forall j, (j < k)%nat -> throttled_at e i w j = true)
    /\ throttled_at e i w k = false
    /\ r = write_out e i (snd (time_Now e (wait e k w))).
Proof.
  revert i w. induction fuel as [|fuel IH]; intros i w H; [discriminate|].
  rewrite batchWrite_unfold in H.
  destruct (throttled_at e i w 0) eqn:H0.
  - apply IH in H. destruct H as (k & Hk & Hlt & Hpass & Hr).
    exists (S k). split; [lia|]. split; [|split].
    + intros [|j] Hj; [exact H0|].
      rewrite <- (throttled_at_retry i w). apply Hlt. lia.
    + now rewrite <- (throttled_at_retry i w).
    + rewrite Hr, write_out_throttle. reflexivity.
  - exists 0%nat. split; [lia|]. split; [intros j Hj; lia|].
    split; [exact H0|]. now inversion H.
Qed.

Lemma batchWrite_retries (k fuel : nat) (i : Importer) (w : World) :
  (forall j, (j < k)%nat -> throttled_at e i w j = true) ->
  throttled_at e i w k = false ->
  (k < fuel)%nat ->
  batchWrite e fuel i w = Done (write_out e i (snd (time_Now e (wait e k w)))).
Proof.
  revert fuel i w. induction k as [|k IH]; intros fuel i w Hlt Hpass Hk;
    (destruct fuel as [|fuel]; [lia|]); rewrite batchWrite_unfold.
  - rewrite Hpass. reflexivity.
  - rewrite (Hlt 0%nat) by lia.
    rewrite IH; [now rewrite write_out_throttle| | |lia].
    + intros j Hj. rewrite (throttled_at_retry i w). apply Hlt. lia.
    + now rewrite (throttled_at_retry i w).
Qed.

(** Once some reading passes the rate check, the flush returns. *)
Lemma batchWrite_returns (k : nat) (i : Importer) (w : World) :
  throttled_at e i w k = false ->
  exists r, batchWrite e (S k) i w = Done r.
Proof.
  revert i w. induction k as [|k IH]; intros i w Hpass;
    rewrite batchWrite_unfold.
  - rewrite Hpass. eauto.
  - destruct (throttled_at e i w 0); [|eauto].
    apply IH. now rewrite (throttled_at_retry i w).
Qed.

Lemma batchWrite_mono (fuel fuel' : nat) (i : Importer) (w : World)
    (r : Importer * World) :
  batchWrite e fuel i w = Done r -> (fuel <= fuel')%nat ->
  batchWrite e fuel' i w = Done r.
Proof.
  intros H Hle. apply batchWrite_Done_inv in H.
  destruct H as (k & Hk & Hlt & Hpass & ->).
  apply batchWrite_retries; auto. lia.
Qed.

Lemma batchWrite_no_panic (fuel : nat) (i : Importer) (w : World) (msg : string) :
  batchWrite e fuel i w <> Panic msg.
Proof.
  revert i w. induction fuel as [|fuel IH]; intros i w; [discriminate|].
  rewrite batchWrite_unfold. destruct (throttled_at e i w 0);
    [apply IH|discriminate].
Qed.

(** With no limit configured the first rate check passes. *)
Lemma unlimited_not_throttled (i : Importer) (w : World) (j : nat) :
  PPS (config i) = 0 -> throttled_at e i w j = false.
Proof.
  intros H. unfold throttled_at, over_limit. rewrite H.
  now rewrite andb_false_r.
Qed.

Lemma clock_releases_throttled (i : Importer) (w : World) :
  clock_releases e (PPS (config i)) ->
  throttlePointsWritten i = 0 -> len (batch i) <= batchSize ->
  exists k, throttled_at e i w k = false.
Proof.
  intros H Hz Hlen. apply H. unfold accumulated. rewrite Hz, Z.add_0_l.
  pose proof (len_nonneg (batch i)).
  rewrite wrap_in_range; [lia|].
  unfold in_range, int_min, int_max, batchSize in *. lia.
Qed.

Lemma clock_releases_unlimited : clock_releases e 0.
Proof.
  intros n p l _. exists 0%nat. unfold over_limit. now rewrite andb_false_r.
Qed.

Lemma write_out_fields (i : Importer) (w : World) :
  let (i', w') := write_out e i w in
  database i' = database i /\ retentionPolicy i' = retentionPolicy i
  /\ config i' = config i /\ batch i' = batch i
  /\ totalCommands i' = totalCommands i
  /\ createDatabaseQuery i' = createDatabaseQuery i
  /\ throttlePointsWritten i' = 0
  /\ lastWrite i' = now_at e (clock_reads w)
  /\ clock_reads w' = S (clock_reads w)
  /\ writes w' = S (writes w)
  /\ queries w' = queries w.
Proof.
  unfold write_out. cbn.
  destruct (write_err e _ _ _ _ _ _); cbn; repeat split.
Qed.

Lemma batchWrite_throttle_reset (fuel : nat) (i : Importer) (w : World)
    (i' : Importer) (w' : World) :
  batchWrite e fuel i w = Done (i', w') -> throttlePointsWritten i' = 0.
Proof.
  intros H. apply batchWrite_Done_inv in H. destruct H as (k & _ & _ & _ & Hr).
  pose proof (write_out_fields i (snd (time_Now e (wait e k w)))) as Hf.
  rewrite <- Hr in Hf. apply Hf.
Qed.

Lemma write_out_trace (i : Importer) (w : World) :
  trace (snd (write_out e i w)) =
    (trace w ++ the_write e i w :: failure_events i (write_answer e i w)
       ++ [EvNow (now_at e (clock_reads w))])%list.
Proof.
  unfold write_out, the_write, write_answer. cbn.
  destruct (write_err e _ _ _ _ _ _); cbn;
    rewrite <- ?app_assoc; reflexivity.
Qed.

Lemma write_out_counters (i : Importer) (w : World) :
  let i' := fst (write_out e i w) in
  match write_answer e i w with
  | Some _ => failedInserts i' = wrap (failedInserts i + len (batch i))
              /\ totalInserts i' = totalInserts i
  | None => totalInserts i' = wrap (totalInserts i + len (batch i))
            /\ failedInserts i' = failedInserts i
  end.
Proof.
  unfold write_out, write_answer. cbn.
  destruct (write_err e _ _ _ _ _ _); cbn; split; reflexivity.
Qed.

(** The world in which the write of a flush happens, after [k] failed rate
    checks and the reading that passed. *)
Lemma write_world (k : nat) (w : World) :
  let w1 := snd (time_Now e (wait e k w)) in
  clock_reads w1 = S (clock_reads w + k)
  /\ writes w1 = writes w /\ queries w1 = queries w
  /\ trace w1 = (trace w ++ wait_events e (clock_reads w) k
                  ++ [EvNow (now_at e (clock_reads w + k))])%list.
Proof.
  destruct (wait_counters k w) as (Hc & Hw & Hq & Ht). cbn.
  rewrite Hc, Hw, Hq, Ht, <- app_assoc. auto.
Qed.

Lemma the_write_writes (i : Importer) (w w1 : World) :
  writes w1 = writes w -> the_write e i w1 = the_write e i w.
Proof. unfold the_write, write_answer. now intros ->. Qed.



(** The trace of a flush that returns after [k] failed rate checks. *)
Lemma batchWrite_trace (k : nat) (i : Importer) (w : World) :
  trace (snd (write_out e i (snd (time_Now e (wait e k w))))) =
    (trace w ++ wait_events e (clock_reads w) k
       ++ EvNow (now_at e (clock_reads w + k)) :: the_write e i w
       :: failure_events i (write_answer e i w)
       ++ [EvNow (now_at e (S (clock_reads w + k)))])%list.
Proof.
  rewrite write_out_trace.
  destruct (write_world k w) as (Hc & Hw & _ & Ht).
  rewrite Ht, Hc, (the_write_writes i w _ Hw).
  unfold write_answer at 1. rewrite Hw. fold (write_answer e i w).
  rewrite <- !app_assoc. reflexivity.
Qed.


(** C9: once a flush has resolved, with the write accepted or refused and
    after any number of throttled attempts, the rate window is reset: the
    count of points since the last write is zero and the time of the last
    write is the reading of the clock taken last, after which the flush does
    nothing more.  A flush resolves as soon as some reading of the clock
    passes the rate check. *)
Theorem batchWrite_resets_rate_window (fuel : nat) (i : Importer) (w : World) :
  (forall i' w', batchWrite e fuel i w = Done (i', w') ->
     throttlePointsWritten i' = 0
     /\ lastWrite i' = now_at e (Nat.pred (clock_reads w'))
     /\ exists tr, trace w' = (trace w ++ tr ++ [EvNow (lastWrite i')])%list)
  /\ (forall k, throttled_at e i w k = false -> (k < fuel)%nat ->
      exists i' w', batchWrite e fuel i w = Done (i', w')).
Proof.
  split.
  - intros i' w' H. apply batchWrite_Done_inv in H.
    destruct H as (k & _ & _ & _ & Hr).
    pose proof (write_out_fields i (snd (time_Now e (wait e k w)))) as Hf.
    pose proof (batchWrite_trace k i w) as Ht.
    destruct (write_world k w) as (Hc & _).
    rewrite <- Hr in Hf, Ht. cbn [snd] in Ht.
    destruct Hf as (_ & _ & _ & _ & _ & _ & Hz & Hl & Hc' & _).
    split; [exact Hz|]. split; [now rewrite Hc', Hl|].
    rewrite Hl, Hc, Ht.
    exists (wait_events e (clock_reads w) k
              ++ EvNow (now_at e (clock_reads w + k)) :: the_write e i w
              :: failure_events i (write_answer e i w))%list.
    rewrite <- !app_assoc. reflexivity.
  - intros k Hk Hlt. destruct (batchWrite_returns k i w Hk) as [[i' w'] Hr].
    exists i', w'. eapply batchWrite_mono; [exact Hr|lia].
Qed.

End BatchWrite.

(** ** Splitting a context line *)

Lemma HasPrefix_app (s p : string) :
  HasPrefix s p = true -> exists r, s = p ++ r.
Proof.
  unfold HasPrefix. revert s. induction p as [|c p IH]; intros s H.
  - exists s. reflexivity.
  - destruct s as [|d s]; [discriminate|]. cbn in H.
    destruct (ascii_dec c d) as [->|]; [|discriminate].
    destruct (IH s H) as [r ->]. exists r. reflexivity.
Qed.

Lemma Split_nonempty (s : string) (sep : ascii) : Split s sep <> [].
Proof.
  destruct s as [|c s]; cbn; [discriminate|].
  destruct (Ascii.eqb c sep); [discriminate|].
  destruct (Split s sep); discriminate.
Qed.

(** A string with a separator in it splits into two fields at least. *)
Lemma Split_second (a r : string) (sep : ascii) :
  exists field, nth_error (Split (a ++ String sep r) sep) 1 = Some field.
Proof.
  induction a as [|c a IH]; cbn.
  - rewrite Ascii.eqb_refl. cbn.
    destruct (Split r sep) as [|f fs] eqn:H; [now apply Split_nonempty in H|].
    eauto.
  - destruct (Ascii.eqb c sep).
    + cbn. destruct (Split (a ++ String sep r) sep) as [|f fs] eqn:H;
        [now apply Split_nonempty in H|]. eauto.
    + destruct (Split (a ++ String sep r) sep) as [|f fs];
        destruct IH as [field Hf]; [discriminate|]. cbn in *. eauto.
Qed.

Lemma context_database_value (line : string) :
  HasPrefix line "# CONTEXT-DATABASE:" = true ->
  exists field, nth_error (Split line ":") 1 = Some field.
Proof.
  intros H. apply HasPrefix_app in H. destruct H as [r ->].
  change ("# CONTEXT-DATABASE:" ++ r)
    with ("# CONTEXT-DATABASE" ++ String ":" r).
  apply Split_second.
Qed.

Lemma context_retention_policy_value (line : string) :
  HasPrefix line "# CONTEXT-RETENTION-POLICY:" = true ->
  exists field, nth_error (Split line ":") 1 = Some field.
Proof.
  intros H. apply HasPrefix_app in H. destruct H as [r ->].
  change ("# CONTEXT-RETENTION-POLICY:" ++ r)
    with ("# CONTEXT-RETENTION-POLICY" ++ String ":" r).
  apply Split_second.
Qed.

(** ** The loop of the second phase *)

Section Scan.

Variable e : Env.

Lemma append_elems (g : nat -> nat) (s : slice) (x : string) :
  elems (append g s x) = (elems s ++ [x])%list.
Proof. unfold append. destruct (_ <? _)%nat; reflexivity. Qed.

Lemma append_len (g : nat -> nat) (s : slice) (x : string) :
  len (append g s x) = len s + 1.
Proof. unfold len. rewrite append_elems, length_app. cbn. lia. Qed.

Lemma append_cap (g : nat -> nat) (s : slice) (x : string) :
  (List.length (elems s) < cap s)%nat -> cap (append g s x) = cap s.
Proof.
  intros H. unfold append. apply Nat.ltb_lt in H. now rewrite H.
Qed.

Lemma count_data_cons (line : string) (rest : list string) :
  count_data (line :: rest) =
    (if is_data line then 1 else 0) + count_data rest.
Proof.
  unfold count_data. cbn. destruct (is_data line); cbn [List.length]; lia.
Qed.

Lemma scanDML_cons (fuel : nat) (dbo rpo : string) (start : Time)
    (line : string) (rest : list string) (i : Importer) (w : World) :
  scanDML e fuel dbo rpo start (line :: rest) i w =
    (i1 <- apply_context dbo rpo line i ;;
     if is_data line
     then '(i2, w2) <- batchAccumulator e fuel i1 w line start ;;
          scanDML e fuel dbo rpo start rest i2 w2
     else scanDML e fuel dbo rpo start rest i1 w).
Proof.
  cbn [scanDML]. unfold apply_context, is_data.
  destruct (HasPrefix line "#"),
    (String.eqb (TrimSpace line) EmptyString); cbn [negb andb];
    destruct (String.eqb dbo EmptyString
              && HasPrefix line "# CONTEXT-DATABASE:"),
      (String.eqb rpo EmptyString
       && HasPrefix line "# CONTEXT-RETENTION-POLICY:"); cbn [bind];
    destruct (context_value line); cbn [bind]; reflexivity.
Qed.

Lemma set_database_same (i : Importer) : set_database i (database i) = i.
Proof. now destruct i. Qed.

Lemma set_retentionPolicy_same (i : Importer) :
  set_retentionPolicy i (retentionPolicy i) = i.
Proof. now destruct i. Qed.

(** The context tests never panic; they change the database only without a
    database override, and the retention policy only without a
    retention-policy override. *)
Lemma apply_context_Done (dbo rpo line : string) (i : Importer) :
  exists d r,
    apply_context dbo rpo line i
      = Done (set_retentionPolicy (set_database i d) r)
    /\ (dbo <> EmptyString -> d = database i)
    /\ (rpo <> EmptyString -> r = retentionPolicy i).
Proof.
  unfold apply_context, context_value.
  destruct (String.eqb_spec dbo EmptyString) as [Hd|Hd]; cbn [andb].
  - destruct (HasPrefix line "# CONTEXT-DATABASE:") eqn:Hp.
    + destruct (context_database_value line Hp) as [f ->]. cbn [bind].
      destruct (String.eqb_spec rpo EmptyString) as [Hr|Hr]; cbn [andb].
      * destruct (HasPrefix line "# CONTEXT-RETENTION-POLICY:") eqn:Hq.
        -- cbn. exists (TrimSpace f), (TrimSpace f). repeat split; congruence.
        -- exists (TrimSpace f), (retentionPolicy i).
           rewrite <- (set_retentionPolicy_same (set_database i _)) at 1.
           repeat split; congruence.
      * exists (TrimSpace f), (retentionPolicy i).
        rewrite <- (set_retentionPolicy_same (set_database i _)) at 1.
        repeat split; congruence.
    + cbn [bind].
      destruct (String.eqb_spec rpo EmptyString) as [Hr|Hr]; cbn [andb].
      * destruct (HasPrefix line "# CONTEXT-RETENTION-POLICY:") eqn:Hq.
        -- destruct (context_retention_policy_value line Hq) as [f ->].
           cbn. exists (database i), (TrimSpace f).
           rewrite set_database_same. repeat split; congruence.
        -- exists (database i), (retentionPolicy i).
           rewrite set_database_same, set_retentionPolicy_same.
           repeat split; congruence.
      * exists (database i), (retentionPolicy i).
        rewrite set_database_same, set_retentionPolicy_same.
        repeat split; congruence.
  - cbn [bind].
    destruct (String.eqb_spec rpo EmptyString) as [Hr|Hr]; cbn [andb].
    + destruct (HasPrefix line "# CONTEXT-RETENTION-POLICY:") eqn:Hq.
      * destruct (context_retention_policy_value line Hq) as [f ->].
        cbn. exists (database i), (TrimSpace f).
        rewrite set_database_same. repeat split; congruence.
      * exists (database i), (retentionPolicy i).
        rewrite set_database_same, set_retentionPolicy_same.
        repeat split; congruence.
    + exists (database i), (retentionPolicy i).
      rewrite set_database_same, set_retentionPolicy_same.
      repeat split; congruence.
Qed.

(** Everything a flush that returns has done. *)
Lemma batchWrite_effect (fuel : nat) (i : Importer) (w : World)
    (i' : Importer) (w' : World) :
  batchWrite e fuel i w = Done (i', w') ->
  database i' = database i /\ retentionPolicy i' = retentionPolicy i
  /\ config i' = config i /\ batch i' = batch i
  /\ totalCommands i' = totalCommands i
  /\ createDatabaseQuery i' = createDatabaseQuery i
  /\ writes w' = S (writes w) /\ queries w' = queries w
  /\ match write_answer e i w with
     | Some _ => failedInserts i' = wrap (failedInserts i + len (batch i))
                 /\ totalInserts i' = totalInserts i
     | None => totalInserts i' = wrap (totalInserts i + len (batch i))
               /\ failedInserts i' = failedInserts i
     end
  /\ exists k,
       lastWrite i' = now_at e (S (clock_reads w + k))
       /\ trace w' =
            (trace w ++ wait_events e (clock_reads w) k
               ++ EvNow (now_at e (clock_reads w + k)) :: the_write e i w
               :: failure_events i (write_answer e i w)
               ++ [EvNow (now_at e (S (clock_reads w + k)))])%list.
Proof.
  intros H. apply batchWrite_Done_inv in H.
  destruct H as (k & _ & _ & _ & Hr).
  pose proof (write_out_fields e i (snd (time_Now e (wait e k w)))) as Hf.
  pose proof (write_out_counters e i (snd (time_Now e (wait e k w)))) as Hc.
  pose proof (batchWrite_trace e k i w) as Ht.
  destruct (write_world e k w) as (Hcr & Hw & Hq & _).
  rewrite <- Hr in Hf, Hc, Ht. cbn [fst snd] in Hc, Ht.
  destruct Hf as (H1 & H2 & H3 & H4 & H5 & H6 & _ & Hl & _ & H7 & H8).
  unfold write_answer in Hc at 1. rewrite Hw in Hc.
  fold (write_answer e i w) in Hc.
  repeat (split; [congruence|]). exists k. split; [congruence|exact Ht].
Qed.

(** What [batchAccumulator] has done when it returns: the line is appended,
    and when that fills the batch, the batch is flushed and emptied, and the
    status is logged at every multiple of 100000 lines. *)
Lemma batchAccumulator_inv (fuel : nat) (i : Importer) (w : World)
    (line : string) (start : Time) (i' : Importer) (w' : World) :
  batchAccumulator e fuel i w line start = Done (i', w') ->
  let i1 := set_batch i (append (growslice e) (batch i) line) in
  if len (batch i) + 1 =? batchSize then
    exists i2 w2,
      batchWrite e fuel i1 w = Done (i2, w2)
      /\ i' = set_batch i2 (reslice0 (batch i2))
      /\ (w' = w2
          \/ w' = emit (snd (time_Now e w2))
                    (EvLog (LogStatus
                              (wrap (totalInserts i2 + failedInserts i2))
                              (Sub (now_at e (clock_reads w2)) start))))
  else i' = i1 /\ w' = w.
Proof.
  unfold batchAccumulator. cbn [batch set_batch]. rewrite append_len.
  destruct (len (batch i) + 1 =? batchSize).
  - destruct (batchWrite e fuel _ w) as [[i2 w2]| |]; cbn [bind];
      try discriminate.
    cbn [totalInserts failedInserts set_batch].
    destruct (Z.rem _ 100000 =? 0); intros [= <- <-];
      exists i2, w2; auto.
  - intros [= <- <-]. auto.
Qed.

Lemma batchAccumulator_mono (fuel fuel' : nat) (i : Importer) (w : World)
    (line : string) (start : Time) (r : Importer * World) :
  batchAccumulator e fuel i w line start = Done r -> (fuel <= fuel')%nat ->
  batchAccumulator e fuel' i w line start = Done r.
Proof.
  unfold batchAccumulator. intros H Hle.
  destruct (len _ =? batchSize); [|exact H].
  destruct (batchWrite e fuel _ w) as [r2| |] eqn:Hb; try discriminate.
  rewrite (batchWrite_mono e fuel fuel' _ _ _ Hb Hle). exact H.
Qed.

Lemma batchAccumulator_no_panic (fuel : nat) (i : Importer) (w : World)
    (line : string) (start : Time) (msg : string) :
  batchAccumulator e fuel i w line start <> Panic msg.
Proof.
  unfold batchAccumulator. destruct (len _ =? batchSize); [|discriminate].
  destruct (batchWrite e fuel _ w) as [[i2 w2]| |] eqn:Hb; cbn [bind];
    [|now apply batchWrite_no_panic in Hb|discriminate].
  destruct (Z.rem _ _ =? 0); discriminate.
Qed.

Lemma batchAccumulator_returns (i : Importer) (w : World) (line : string)
    (start : Time) :
  clock_releases e (PPS (config i)) -> ready i ->
  exists fuel r, batchAccumulator e fuel i w line start = Done r.
Proof.
  intros Hrel [Hz Hroom]. unfold batchAccumulator.
  destruct (Z.eqb_spec (len (batch (set_batch i
              (append (growslice e) (batch i) line)))) batchSize)
    as [Hfull|_]; [|exists 0%nat; eauto].
  set (i1 := set_batch i _) in *.
  destruct (clock_releases_throttled e i1 w Hrel Hz) as [k Hk]; [lia|].
  destruct (batchWrite_returns e k i1 w Hk) as [[i2 w2] Hr].
  exists (S k). rewrite Hr. cbn [bind].
  destruct (Z.rem _ _ =? 0); unfold time_Since, time_Now; eauto.
Qed.

Lemma batchAccumulator_same (fuel : nat) (i : Importer) (w : World)
    (line : string) (start : Time) (i' : Importer) (w' : World) :
  batchAccumulator e fuel i w line start = Done (i', w') ->
  database i' = database i /\ retentionPolicy i' = retentionPolicy i
  /\ config i' = config i /\ totalCommands i' = totalCommands i
  /\ createDatabaseQuery i' = createDatabaseQuery i
  /\ queries w' = queries w.
Proof.
  intros H. apply batchAccumulator_inv in H. cbv zeta in H.
  destruct (len (batch i) + 1 =? batchSize).
  - destruct H as (i2 & w2 & Hb & -> & Hw).
    apply batchWrite_effect in Hb.
    destruct Hb as (H1 & H2 & H3 & _ & H5 & H6 & _ & H8 & _).
    cbn in *. destruct Hw as [-> | ->]; cbn; auto 10.
  - destruct H as [-> ->]. cbn. auto 10.
Qed.

(** A property of the importer and the world that the context tests keep
    and every accepted data line advances by one holds at the end of the
    loop, advanced by the number of data lines. *)
Lemma scanDML_invariant (P : Z -> Importer -> World -> Prop) (fuel : nat)
    (dbo rpo : string) (start : Time) :
  (forall n i w line i1,
     P n i w -> apply_context dbo rpo line i = Done i1 -> P n i1 w) ->
  (forall n i w line i' w',
     is_data line = true -> P n i w ->
     batchAccumulator e fuel i w line start = Done (i', w') ->
     P (n + 1) i' w') ->
  forall lines n i w i' w',
    scanDML e fuel dbo rpo start lines i w = Done (i', w') ->
    P n i w -> P (n + count_data lines) i' w'.
Proof.
  intros Hctx Hacc lines.
  induction lines as [|line rest IH]; intros n i w i' w' H HP.
  - cbn in H. injection H as <- <-. unfold count_data. cbn.
    now rewrite Z.add_0_r.
  - rewrite scanDML_cons in H. rewrite count_data_cons.
    destruct (apply_context dbo rpo line i) as [i1| |] eqn:Hc;
      cbn [bind] in H; try discriminate.
    pose proof (Hctx _ _ _ _ _ HP Hc) as HP1.
    destruct (is_data line) eqn:Hd.
    + destruct (batchAccumulator e fuel i1 w line start) as [[i2 w2]| |] eqn:Ha;
        cbn [bind] in H; try discriminate.
      rewrite Z.add_assoc. eapply IH; [exact H|]. eapply Hacc; eauto.
    + rewrite Z.add_0_l. eapply IH; eauto.
Qed.

Lemma scanDML_mono (fuel fuel' : nat) (dbo rpo : string) (start : Time)
    (lines : list string) (i : Importer) (w : World) (r : Importer * World) :
  scanDML e fuel dbo rpo start lines i w = Done r -> (fuel <= fuel')%nat ->
  scanDML e fuel' dbo rpo start lines i w = Done r.
Proof.
  intros H Hle. revert i w H.
  induction lines as [|line rest IH]; intros i w H; [exact H|].
  rewrite scanDML_cons in *.
  destruct (apply_context dbo rpo line i) as [i1| |]; cbn [bind] in *;
    try discriminate.
  destruct (is_data line); [|now apply IH].
  destruct (batchAccumulator e fuel i1 w line start) as [[i2 w2]| |] eqn:Ha;
    cbn [bind] in H; try discriminate.
  rewrite (batchAccumulator_mono fuel fuel' _ _ _ _ _ Ha Hle). cbn [bind].
  now apply IH.
Qed.

Lemma scanDML_no_panic (fuel : nat) (dbo rpo : string) (start : Time)
    (lines : list string) (i : Importer) (w : World) (msg : string) :
  scanDML e fuel dbo rpo start lines i w <> Panic msg.
Proof.
  revert i w. induction lines as [|line rest IH]; intros i w; [discriminate|].
  rewrite scanDML_cons.
  destruct (apply_context_Done dbo rpo line i) as (d & r & -> & _).
  cbn [bind]. destruct (is_data line); [|apply IH].
  destruct (batchAccumulator e fuel _ w line start) as [[i2 w2]| |] eqn:Ha;
    cbn [bind]; [apply IH| |discriminate].
  now apply batchAccumulator_no_panic in Ha.
Qed.

(** Without a limit the accumulator returns on its first attempt. *)
Lemma batchAccumulator_unlimited (fuel : nat) (i : Importer) (w : World)
    (line : string) (start : Time) :
  PPS (config i) = 0 ->
  exists r, batchAccumulator e (S fuel) i w line start = Done r.
Proof.
  intros H. unfold batchAccumulator.
  destruct (len _ =? batchSize); [|eauto].
  rewrite batchWrite_unfold, unlimited_not_throttled by exact H.
  cbn [bind]. destruct (write_out e _ _) as [i2 w2].
  destruct (Z.rem _ _ =? 0); unfold time_Since, time_Now; eauto.
Qed.

(** Between two flushes the importer stays ready. *)
Lemma batchAccumulator_ready (fuel : nat) (i : Importer) (w : World)
    (line : string) (start : Time) (i' : Importer) (w' : World) :
  batchAccumulator e fuel i w line start = Done (i', w') ->
  ready i -> ready i'.
Proof.
  intros H [Hz Hroom]. apply batchAccumulator_inv in H. cbv zeta in H.
  destruct (Z.eqb_spec (len (batch i) + 1) batchSize) as [Heq|Hne].
  - destruct H as (i2 & w2 & Hb & -> & _).
    apply batchWrite_throttle_reset in Hb. split; [exact Hb|].
    unfold len. cbn. unfold batchSize. lia.
  - destruct H as [-> _]. split; [exact Hz|]. cbn. rewrite append_len. lia.
Qed.

(** With a clock that releases every flush, the loop comes to its end. *)
Lemma scanDML_returns (dbo rpo : string) (start : Time) (lines : list string)
    (i : Importer) (w : World) :
  clock_releases e (PPS (config i)) -> ready i ->
  exists fuel i' w',
    scanDML e fuel dbo rpo start lines i w = Done (i', w')
    /\ config i' = config i /\ ready i'.
Proof.
  revert i w. induction lines as [|line rest IH]; intros i w Hrel Hready.
  - exists 0%nat, i, w. auto.
  - destruct (apply_context_Done dbo rpo line i) as (d & r & Hc & _).
    set (i1 := set_retentionPolicy (set_database i d) r) in *.
    assert (Hcfg : config i1 = config i) by reflexivity.
    assert (Hready1 : ready i1) by exact Hready.
    destruct (is_data line) eqn:Hd.
    + destruct (batchAccumulator_returns i1 w line start) as (f1 & [i2 w2] & Ha);
        [now rewrite Hcfg|exact Hready1|].
      pose proof (batchAccumulator_same _ _ _ _ _ _ _ Ha) as (_ & _ & Hc2 & _).
      pose proof (batchAccumulator_ready _ _ _ _ _ _ _ Ha Hready1) as Hready2.
      destruct (IH i2 w2) as (f2 & i' & w' & Hs & Hc3 & Hready3);
        [now rewrite Hc2, Hcfg|exact Hready2|].
      exists (Nat.max f1 f2), i', w'.
      rewrite scanDML_cons, Hc, Hd. cbn [bind].
      rewrite (batchAccumulator_mono f1 _ _ _ _ _ _ Ha (Nat.le_max_l f1 f2)).
      cbn [bind].
      rewrite (scanDML_mono f2 _ _ _ _ _ _ _ _ Hs (Nat.le_max_r f1 f2)).
      repeat split; try congruence; apply Hready3.
    + destruct (IH i1 w) as (f & i' & w' & Hs & Hc3 & Hready3);
        [now rewrite Hcfg|exact Hready1|].
      exists f, i', w'. rewrite scanDML_cons, Hc, Hd. cbn [bind].
      repeat split; try congruence; apply Hready3.
Qed.

Lemma wrap_small (a n : Z) :
  0 <= a -> 0 <= n -> a + n <= int_max -> wrap (a + n) = a + n.
Proof.
  intros Ha Hn Hle. apply wrap_in_range.
  unfold in_range, int_min, int_max in *. lia.
Qed.

(** A flush moves the batch length into exactly one of the two counters. *)
Lemma batchWrite_accounting (fuel : nat) (i : Importer) (w : World)
    (i' : Importer) (w' : World) :
  batchWrite e fuel i w = Done (i', w') ->
  0 <= totalInserts i -> 0 <= failedInserts i ->
  totalInserts i + failedInserts i + len (batch i) <= int_max ->
  0 <= totalInserts i' /\ 0 <= failedInserts i'
  /\ totalInserts i' + failedInserts i'
     = totalInserts i + failedInserts i + len (batch i).
Proof.
  intros H Ht Hf Hle. apply batchWrite_effect in H.
  destruct H as (_ & _ & _ & _ & _ & _ & _ & _ & Hc & _).
  pose proof (len_nonneg (batch i)) as Hl.
  destruct (write_answer e i w); destruct Hc as [-> ->];
    rewrite wrap_small; lia.
Qed.

Lemma batchAccumulator_accounting (fuel : nat) (i : Importer) (w : World)
    (line : string) (start : Time) (i' : Importer) (w' : World) :
  batchAccumulator e fuel i w line start = Done (i', w') ->
  0 <= totalInserts i -> 0 <= failedInserts i -> len (batch i) < batchSize ->
  totalInserts i + failedInserts i + len (batch i) + 1 <= int_max ->
  0 <= totalInserts i' /\ 0 <= failedInserts i'
  /\ len (batch i') < batchSize
  /\ totalInserts i' + failedInserts i' + len (batch i')
     = totalInserts i + failedInserts i + len (batch i) + 1.
Proof.
  intros H Ht Hf Hlen Hle. apply batchAccumulator_inv in H. cbv zeta in H.
  destruct (Z.eqb_spec (len (batch i) + 1) batchSize) as [Heq|Hne].
  - destruct H as (i2 & w2 & Hb & -> & _).
    pose proof (batchWrite_effect _ _ _ _ _ Hb) as (_ & _ & _ & Hbat & _).
    apply batchWrite_accounting in Hb; cbn in *;
      rewrite ?append_len; try lia.
    rewrite append_len in Hb. unfold batchSize in *. lia.
  - destruct H as [-> ->]. cbn. rewrite append_len. lia.
Qed.

(** The counters over the loop of the second phase: every data line ends
    up in the batch or in one of the two counters. *)
Lemma scanDML_accounting (fuel : nat) (dbo rpo : string) (start : Time)
    (lines : list string) (i : Importer) (w : World)
    (i' : Importer) (w' : World) :
  scanDML e fuel dbo rpo start lines i w = Done (i', w') ->
  0 <= totalInserts i -> 0 <= failedInserts i -> len (batch i) < batchSize ->
  totalInserts i + failedInserts i + len (batch i) + count_data lines
    <= int_max ->
  0 <= totalInserts i' /\ 0 <= failedInserts i'
  /\ len (batch i') < batchSize
  /\ totalInserts i' + failedInserts i' + len (batch i')
     = totalInserts i + failedInserts i + len (batch i) + count_data lines.
Proof.
  intros H Ht Hf Hlen Hle.
  set (T0 := totalInserts i + failedInserts i + len (batch i)) in *.
  pose (P := fun (n : Z) (j : Importer) (_ : World) =>
    T0 + n <= int_max ->
    0 <= totalInserts j /\ 0 <= failedInserts j /\ len (batch j) < batchSize
    /\ totalInserts j + failedInserts j + len (batch j) = T0 + n).
  assert (HP : P (0 + count_data lines) i' w').
  { eapply (scanDML_invariant P); [| |exact H|].
    - intros n j v line j1 Hj Hc.
      destruct (apply_context_Done dbo rpo line j) as (d & r & Hd & _).
      rewrite Hd in Hc. injection Hc as <-. exact Hj.
    - intros n j v line j' v' _ Hj Ha Hbound.
      destruct Hj as (H1 & H2 & H3 & H4); [lia|].
      pose proof (batchAccumulator_accounting _ _ _ _ _ _ _ Ha H1 H2 H3)
        as Hstep.
      destruct Hstep as (H1' & H2' & H3' & H4'); [lia|]. repeat split; lia.
    - intros _. subst T0. repeat split; lia. }
  apply HP. lia.
Qed.

End Scan.

(** ** The second phase as a whole *)

Section ProcessDML.

Variable e : Env.

Lemma processDML_unfold (fuel : nat) (i : Importer) (scanner : Scanner)
    (w : World) (dbo rpo : string) :
  processDML e fuel i scanner w dbo rpo =
    (let '(i1, w1, start) := dml_setup e i w dbo rpo in
     '(i2, w2) <- scanDML e fuel dbo rpo start (tokens scanner) i1 w1 ;;
     '(i3, w3) <- batchWrite e fuel i2 w2 ;;
     Done (i3, {| tokens := []; scan_err := scan_err scanner |}, w3)).
Proof. reflexivity. Qed.

Lemma execute_counters (i : Importer) (w : World) (command : string) :
  clock_reads (execute e i w command) = clock_reads w
  /\ writes (execute e i w command) = writes w
  /\ exists tr,
       trace (execute e i w command)
         = (trace w ++ EvQuery command (database i) :: tr)%list
       /\ forall d, Forall (only_writes_to d) tr.
Proof.
  unfold execute.
  destruct (query_answer_at e (queries w) command (database i)) as [err|[err|]];
    cbn; repeat split;
    try (eexists; rewrite <- ?app_assoc; cbn;
         split; [reflexivity|intros d; repeat constructor]).
Qed.

(** The setup of the second phase leaves the counters, the batch and the
    configuration alone; with a database override the target is the
    override and the schema command creates it. *)
Lemma dml_setup_fields (i : Importer) (w : World) (dbo rpo : string) :
  let '(i1, w1, start) := dml_setup e i w dbo rpo in
  config i1 = config i /\ batch i1 = batch i
  /\ totalInserts i1 = totalInserts i /\ failedInserts i1 = failedInserts i
  /\ throttlePointsWritten i1 = throttlePointsWritten i
  /\ writes w1 = writes w
  /\ (dbo <> EmptyString ->
      database i1 = dbo
      /\ createDatabaseQuery i1 = "CREATE DATABASE " ++ dbo)
  /\ (dbo = EmptyString ->
      database i1 = database i
      /\ createDatabaseQuery i1 = createDatabaseQuery i)
  /\ exists tr,
       trace w1 = (trace w ++ EvQuery (createDatabaseQuery i1) (database i1)
                     :: tr)%list
       /\ forall d, Forall (only_writes_to d) tr.
Proof.
  unfold dml_setup, queryExecutor, time_Now.
  destruct (String.eqb_spec dbo EmptyString) as [Hd|Hd]; cbn [negb];
    destruct (negb (String.eqb rpo EmptyString)); cbn;
    match goal with
    | |- context [execute e ?j w ?c] =>
        destruct (execute_counters j w c) as (Hc & Hw & tr & Ht & Hn);
        cbn in Ht; rewrite Ht
    end;
    (repeat split; try congruence;
     try (eexists; rewrite <- app_assoc; cbn [app];
          split; [reflexivity|]; intros d0; apply Forall_app;
          split; [apply Hn|repeat constructor])).
Qed.

Lemma processDML_inv (fuel : nat) (i : Importer) (scanner : Scanner)
    (w : World) (dbo rpo : string) (i' : Importer) (scanner' : Scanner)
    (w' : World) :
  processDML e fuel i scanner w dbo rpo = Done (i', scanner', w') ->
  exists i1 w1 start i2 w2,
    dml_setup e i w dbo rpo = (i1, w1, start)
    /\ scanDML e fuel dbo rpo start (tokens scanner) i1 w1 = Done (i2, w2)
    /\ batchWrite e fuel i2 w2 = Done (i', w')
    /\ scanner' = {| tokens := []; scan_err := scan_err scanner |}.
Proof.
  rewrite processDML_unfold.
  destruct (dml_setup e i w dbo rpo) as [[i1 w1] start].
  destruct (scanDML e fuel dbo rpo start (tokens scanner) i1 w1)
    as [[i2 w2]| |] eqn:Hs; cbn [bind]; try discriminate.
  destruct (batchWrite e fuel i2 w2) as [[i3 w3]| |] eqn:Hb; cbn [bind];
    try discriminate.
  intros [= <- <- <-]. exists i1, w1, start, i2, w2. repeat split; assumption.
Qed.

(** With a clock that releases every flush, the second phase returns. *)
Lemma processDML_returns (i : Importer) (scanner : Scanner) (w : World)
    (dbo rpo : string) :
  clock_releases e (PPS (config i)) -> ready i ->
  exists fuel i' scanner' w',
    processDML e fuel i scanner w dbo rpo = Done (i', scanner', w').
Proof.
  intros Hrel [Hz Hroom].
  pose proof (dml_setup_fields i w dbo rpo) as Hs.
  destruct (dml_setup e i w dbo rpo) as [[i1 w1] start] eqn:Hsetup.
  destruct Hs as (Hc1 & Hb1 & _ & _ & Hz1 & _).
  destruct (scanDML_returns e dbo rpo start (tokens scanner) i1 w1)
    as (f1 & i2 & w2 & Hscan & Hc2 & Hz2 & Hroom2);
    [now rewrite Hc1|split; congruence|].
  destruct (clock_releases_throttled e i2 w2) as [k Hk];
    [now rewrite Hc2, Hc1|exact Hz2|lia|].
  destruct (batchWrite_returns e k i2 w2 Hk) as [[i3 w3] Hb].
  exists (Nat.max f1 (S k)), i3,
    {| tokens := []; scan_err := scan_err scanner |}, w3.
  rewrite processDML_unfold, Hsetup.
  rewrite (scanDML_mono e f1 _ _ _ _ _ _ _ _ Hscan (Nat.le_max_l _ _)).
  cbn [bind].
  rewrite (batchWrite_mono e (S k) _ _ _ _ Hb (Nat.le_max_r _ _)).
  reflexivity.
Qed.

Lemma processDML_no_panic (fuel : nat) (i : Importer) (scanner : Scanner)
    (w : World) (dbo rpo : string) (msg : string) :
  processDML e fuel i scanner w dbo rpo <> Panic msg.
Proof.
  rewrite processDML_unfold.
  destruct (dml_setup e i w dbo rpo) as [[i1 w1] start].
  destruct (scanDML e fuel dbo rpo start (tokens scanner) i1 w1)
    as [[i2 w2]| |] eqn:Hs; cbn [bind];
    [|now apply scanDML_no_panic in Hs|discriminate].
  destruct (batchWrite e fuel i2 w2) as [[i3 w3]| |] eqn:Hb; cbn [bind];
    [discriminate|now apply batchWrite_no_panic in Hb|discriminate].
Qed.

(** The counters after the second phase, from any state of the counters. *)
Lemma processDML_accounting (fuel : nat) (i : Importer) (scanner : Scanner)
    (w : World) (dbo rpo : string) (i' : Importer) (scanner' : Scanner)
    (w' : World) :
  processDML e fuel i scanner w dbo rpo = Done (i', scanner', w') ->
  0 <= totalInserts i -> 0 <= failedInserts i -> len (batch i) < batchSize ->
  totalInserts i + failedInserts i + len (batch i)
    + count_data (tokens scanner) <= int_max ->
  0 <= totalInserts i' /\ 0 <= failedInserts i'
  /\ totalInserts i' + failedInserts i'
     = totalInserts i + failedInserts i + len (batch i)
       + count_data (tokens scanner).
Proof.
  intros H Ht Hf Hlen Hle. apply processDML_inv in H.
  destruct H as (i1 & w1 & start & i2 & w2 & Hsetup & Hscan & Hb & _).
  pose proof (dml_setup_fields i w dbo rpo) as Hs. rewrite Hsetup in Hs.
  destruct Hs as (_ & Hbat & Ht1 & Hf1 & _).
  apply scanDML_accounting in Hscan; rewrite ?Hbat, ?Ht1, ?Hf1; try lia.
  rewrite Hbat, Ht1, Hf1 in Hscan.
  destruct Hscan as (Ht2 & Hf2 & Hlen2 & Hsum).
  apply batchWrite_accounting in Hb; lia.
Qed.

(** C1: after the second phase and its closing flush, the number of data
    lines delivered by the scanner (lines that are neither blank nor
    comments) is [totalInserts + failedInserts]: every data line is counted
    once, in one of the two counters.  The run starts with both counters at
    zero and an empty batch, as [NewImporter] leaves them; the number of data
    lines fits Go's [int]; and the run does come to its end when the clock
    releases every throttled flush. *)
Theorem processDML_counts_every_data_line (fuel : nat) (i : Importer)
    (scanner : Scanner) (w : World) (dbo rpo : string) :
  elems (batch i) = [] -> totalInserts i = 0 -> failedInserts i = 0 ->
  count_data (tokens scanner) <= int_max ->
  (forall i' scanner' w',
     processDML e fuel i scanner w dbo rpo = Done (i', scanner', w') ->
     totalInserts i' + failedInserts i' = count_data (tokens scanner)
     /\ 0 <= totalInserts i' /\ 0 <= failedInserts i')
  /\ (clock_releases e (PPS (config i)) -> throttlePointsWritten i = 0 ->
      exists fuel' i' scanner' w',
        processDML e fuel' i scanner w dbo rpo = Done (i', scanner', w')).
Proof.
  intros Hbat Ht Hf Hle. split.
  - intros i' scanner' w' H.
    assert (Hlen : len (batch i) = 0) by (unfold len; now rewrite Hbat).
    apply processDML_accounting in H; rewrite ?Hlen, ?Ht, ?Hf;
      unfold batchSize; lia.
  - intros Hrel Hz. apply processDML_returns; [exact Hrel|].
    split; [exact Hz|]. unfold len. rewrite Hbat. reflexivity.
Qed.

(** *** The length and the capacity of the batch *)

Lemma batchAccumulator_batching (fuel : nat) (i : Importer) (w : World)
    (line : string) (start : Time) (i' : Importer) (w' : World) :
  batchAccumulator e fuel i w line start = Done (i', w') ->
  len (batch i) < batchSize -> batchSize <= Z.of_nat (cap (batch i)) ->
  cap (batch i') = cap (batch i)
  /\ (len (batch i) + 1 = batchSize ->
      elems (batch i') = [] /\ writes w' = S (writes w))
  /\ (len (batch i) + 1 < batchSize ->
      elems (batch i') = (elems (batch i) ++ [line])%list /\ w' = w).
Proof.
  intros H Hlen Hcap. apply batchAccumulator_inv in H. cbv zeta in H.
  assert (Hlt : (List.length (elems (batch i)) < cap (batch i))%nat)
    by (unfold len in Hlen; lia).
  destruct (Z.eqb_spec (len (batch i) + 1) batchSize) as [Heq|Hne].
  - destruct H as (i2 & w2 & Hb & -> & Hw).
    apply batchWrite_effect in Hb.
    destruct Hb as (_ & _ & _ & Hbat & _ & _ & Hwr & _).
    cbn in *. rewrite Hbat, append_cap by exact Hlt.
    split; [reflexivity|]. split; [|lia].
    intros _. split; [reflexivity|]. destruct Hw as [-> | ->]; exact Hwr.
  - destruct H as [-> ->]. cbn. rewrite append_cap by exact Hlt.
    split; [reflexivity|]. split; [lia|].
    intros _. now rewrite append_elems.
Qed.

(** Over the loop the batch stays below [batchSize] with its capacity, and
    one write is issued for every [batchSize] data lines. *)
Lemma scanDML_batching (fuel : nat) (dbo rpo : string) (start : Time)
    (lines : list string) (i : Importer) (w : World)
    (i' : Importer) (w' : World) :
  scanDML e fuel dbo rpo start lines i w = Done (i', w') ->
  len (batch i) < batchSize -> batchSize <= Z.of_nat (cap (batch i)) ->
  len (batch i') < batchSize /\ cap (batch i') = cap (batch i)
  /\ Z.of_nat (writes w') * batchSize + len (batch i')
     = Z.of_nat (writes w) * batchSize + len (batch i) + count_data lines.
Proof.
  intros H Hlen Hcap.
  pose (P := fun (n : Z) (j : Importer) (v : World) =>
    len (batch j) < batchSize /\ cap (batch j) = cap (batch i)
    /\ Z.of_nat (writes v) * batchSize + len (batch j)
       = Z.of_nat (writes w) * batchSize + len (batch i) + n).
  assert (HP : P (0 + count_data lines) i' w').
  { eapply (scanDML_invariant e P); [| |exact H|].
    - intros n j v line j1 Hj Hc.
      destruct (apply_context_Done dbo rpo line j) as (d & r & Hd & _).
      rewrite Hd in Hc. injection Hc as <-. exact Hj.
    - intros n j v line j' v' _ (H1 & H2 & H3) Ha.
      apply batchAccumulator_batching in Ha; [|exact H1|now rewrite H2].
      destruct Ha as (Hc' & Hfull & Hroom). unfold P.
      pose proof (len_nonneg (batch j)) as Hnn.
      destruct (Z.eq_dec (len (batch j) + 1) batchSize) as [Heq|Hne].
      + destruct (Hfull Heq) as [He Hw].
        assert (Hl' : len (batch j') = 0) by (unfold len; now rewrite He).
        rewrite Hw. unfold batchSize in *. repeat split; lia.
      + destruct Hroom as [He ->]; [lia|].
        assert (Hl' : len (batch j') = len (batch j) + 1).
        { unfold len. rewrite He, length_app. cbn [List.length]. lia. }
        repeat split; lia.
    - unfold P. repeat split; lia. }
  destruct HP as (H1 & H2 & H3). rewrite Z.add_0_l in H3. auto.
Qed.

Lemma processDML_batching (fuel : nat) (i : Importer) (scanner : Scanner)
    (w : World) (dbo rpo : string) (i' : Importer) (scanner' : Scanner)
    (w' : World) :
  processDML e fuel i scanner w dbo rpo = Done (i', scanner', w') ->
  len (batch i) < batchSize -> batchSize <= Z.of_nat (cap (batch i)) ->
  len (batch i') < batchSize /\ cap (batch i') = cap (batch i)
  /\ Z.of_nat (writes w')
     = Z.of_nat (writes w)
       + (len (batch i) + count_data (tokens scanner)) / batchSize + 1
  /\ len (batch i')
     = (len (batch i) + count_data (tokens scanner)) mod batchSize.
Proof.
  intros H Hlen Hcap. apply processDML_inv in H.
  destruct H as (i1 & w1 & start & i2 & w2 & Hsetup & Hscan & Hb & _).
  pose proof (dml_setup_fields i w dbo rpo) as Hs. rewrite Hsetup in Hs.
  destruct Hs as (_ & Hbat & _ & _ & _ & Hwr & _).
  apply scanDML_batching in Hscan; rewrite ?Hbat; try assumption.
  rewrite Hbat, Hwr in Hscan. destruct Hscan as (Hl2 & Hc2 & Hsum).
  apply batchWrite_effect in Hb.
  destruct Hb as (_ & _ & _ & Hbat' & _ & _ & Hwr' & _).
  rewrite Hbat', Hwr'. pose proof (len_nonneg (batch i2)) as Hnn.
  assert (Hdiv : len (batch i) + count_data (tokens scanner)
                 = (Z.of_nat (writes w2) - Z.of_nat (writes w)) * batchSize
                   + len (batch i2)) by lia.
  unfold batchSize in *.
  rewrite <- (Z.div_unique _ 5000 (Z.of_nat (writes w2) - Z.of_nat (writes w))
                (len (batch i2))) by lia.
  rewrite <- (Z.mod_unique _ 5000 (Z.of_nat (writes w2) - Z.of_nat (writes w))
                (len (batch i2))) by lia.
  repeat split; lia.
Qed.

(** *** What the second phase sends where *)

Lemma wait_events_only (d : string) (n k : nat) :
  Forall (only_writes_to d) (wait_events e n k).
Proof.
  revert n. induction k as [|k IH]; intros n; cbn [wait_events];
    repeat constructor. apply IH.
Qed.

Lemma failure_events_only (d : string) (i : Importer) (err : option string) :
  Forall (only_writes_to d) (failure_events i err).
Proof. destruct err; repeat constructor. Qed.

(** A flush adds to the trace no query and no write but the one to the
    database of the importer. *)
Lemma batchWrite_events (fuel : nat) (i : Importer) (w : World)
    (i' : Importer) (w' : World) :
  batchWrite e fuel i w = Done (i', w') ->
  exists tr, trace w' = (trace w ++ tr)%list
             /\ Forall (only_writes_to (database i)) tr.
Proof.
  intros H. apply batchWrite_effect in H.
  destruct H as (_ & _ & _ & _ & _ & _ & _ & _ & _ & k & _ & Ht).
  eexists. split; [exact Ht|].
  apply Forall_app. split; [apply wait_events_only|].
  constructor; [exact I|]. constructor; [reflexivity|].
  apply Forall_app. split; [apply failure_events_only|].
  repeat constructor.
Qed.

Lemma batchAccumulator_events (fuel : nat) (i : Importer) (w : World)
    (line : string) (start : Time) (i' : Importer) (w' : World) :
  batchAccumulator e fuel i w line start = Done (i', w') ->
  exists tr, trace w' = (trace w ++ tr)%list
             /\ Forall (only_writes_to (database i)) tr.
Proof.
  intros H. apply batchAccumulator_inv in H. cbv zeta in H.
  destruct (len (batch i) + 1 =? batchSize).
  - destruct H as (i2 & w2 & Hb & _ & Hw).
    apply batchWrite_events in Hb. cbn [database set_batch] in Hb.
    destruct Hb as (tr & Ht & Hall). destruct Hw as [-> | ->].
    + eauto.
    + cbn. rewrite Ht, <- !app_assoc. eexists. split; [reflexivity|].
      apply Forall_app. split; [exact Hall|]. repeat constructor.
  - destruct H as [_ ->]. exists []. rewrite app_nil_r. auto.
Qed.

(** Under a database override the loop never changes the target database,
    and all it adds to the trace are writes to it. *)
Lemma scanDML_override (fuel : nat) (dbo rpo : string) (start : Time)
    (lines : list string) (i : Importer) (w : World)
    (i' : Importer) (w' : World) :
  dbo <> EmptyString ->
  scanDML e fuel dbo rpo start lines i w = Done (i', w') ->
  database i' = database i
  /\ createDatabaseQuery i' = createDatabaseQuery i
  /\ exists tr, trace w' = (trace w ++ tr)%list
                /\ Forall (only_writes_to (database i)) tr.
Proof.
  intros Hdbo H.
  pose (P := fun (_ : Z) (j : Importer) (v : World) =>
    database j = database i
    /\ createDatabaseQuery j = createDatabaseQuery i
    /\ exists tr, trace v = (trace w ++ tr)%list
                  /\ Forall (only_writes_to (database i)) tr).
  apply (scanDML_invariant e P fuel dbo rpo start) with (n := 0) in H;
    [exact H| | |].
  - intros n j v line j1 (Hd & Hq & Ht) Hc.
    destruct (apply_context_Done dbo rpo line j) as (d & r & Heq & Hkeep & _).
    rewrite Heq in Hc. injection Hc as <-. rewrite (Hkeep Hdbo).
    unfold P. cbn. auto.
  - intros n j v line j' v' _ (Hd & Hq & tr & Ht & Hall) Ha.
    pose proof (batchAccumulator_same e _ _ _ _ _ _ _ Ha)
      as (Hd' & _ & _ & _ & Hq' & _).
    apply batchAccumulator_events in Ha. destruct Ha as (tr' & Ht' & Hall').
    unfold P. split; [congruence|]. split; [congruence|].
    exists (tr ++ tr')%list. rewrite Ht', Ht, app_assoc.
    split; [reflexivity|]. apply Forall_app. split; [exact Hall|].
    now rewrite <- Hd.
  - unfold P. split; [reflexivity|]. split; [reflexivity|].
    exists []. now rewrite app_nil_r.
Qed.

(** C3: a flush issues one write for the whole batch, its lines joined by
    line feeds.  When the transport refuses it, [failedInserts] grows by the
    length of the batch and the same joined lines go to standard output;
    when the transport accepts it, [totalInserts] grows by the length of the
    batch; the other counter and the batch itself are left alone.  Either
    way the flush returns as soon as a reading of the clock passes the rate
    check, and the run goes on: from the empty batch of [NewImporter] the
    second phase issues one write per [batchSize] data lines and one at the
    end of the stream, whatever the transport answers. *)
Theorem batchWrite_accounts_whole_batch (fuel : nat) (i : Importer) (w : World) :
  (forall i' w', batchWrite e fuel i w = Done (i', w') ->
     exists k,
       trace w' =
         (trace w ++ wait_events e (clock_reads w) k
            ++ EvNow (now_at e (clock_reads w + k))
            :: EvWrite (Join (elems (batch i)) newline) (database i)
                 (retentionPolicy i) (Precision (clientConfig (config i)))
                 (WriteConsistency (clientConfig (config i)))
                 (write_answer e i w)
            :: match write_answer e i w with
               | Some msg =>
                   [EvLog (LogWriteError msg);
                    EvStdout (Join (elems (batch i)) newline ++ newline)]
               | None => []
               end
            ++ [EvNow (lastWrite i')])%list
       /\ writes w' = S (writes w)
       /\ batch i' = batch i
       /\ match write_answer e i w with
          | Some _ =>
              failedInserts i' = wrap (failedInserts i + len (batch i))
              /\ totalInserts i' = totalInserts i
          | None =>
              totalInserts i' = wrap (totalInserts i + len (batch i))
              /\ failedInserts i' = failedInserts i
          end)
  /\ (forall k, throttled_at e i w k = false -> (k < fuel)%nat ->
      exists i' w', batchWrite e fuel i w = Done (i', w'))
  /\ (forall scanner dbo rpo i' scanner' w',
      batch i = make0 (Z.to_nat batchSize) ->
      processDML e fuel i scanner w dbo rpo = Done (i', scanner', w') ->
      Z.of_nat (writes w')
      = Z.of_nat (writes w) + count_data (tokens scanner) / batchSize + 1).
Proof.
  split; [|split].
  - intros i' w' H. apply batchWrite_effect in H.
    destruct H as (_ & _ & _ & Hb & _ & _ & Hw & _ & Hc & k & Hl & Ht).
    exists k. rewrite Hl. auto.
  - intros k Hk Hlt. destruct (batchWrite_returns e k i w Hk) as [[i' w'] Hr].
    exists i', w'. eapply batchWrite_mono; [exact Hr|lia].
  - intros scanner dbo rpo i' scanner' w' Hbat H.
    assert (Hl : len (batch i) = 0) by (now rewrite Hbat).
    apply processDML_batching in H;
      [|rewrite Hl; unfold batchSize; lia
       |rewrite Hbat; cbn [cap make0]; rewrite Z2Nat.id; unfold batchSize; lia].
    rewrite Hl, Z.add_0_l in H. destruct H as (_ & _ & H & _). exact H.
Qed.

(** C7: with a database override the schema command of the run is
    [CREATE DATABASE <override>], issued against the override, nothing else
    is ever queried, and every write of the run goes to the override,
    whatever context lines the stream holds and wherever they stand. *)
Theorem processDML_database_override (fuel : nat) (i : Importer)
    (scanner : Scanner) (w : World) (dbo rpo : string) :
  dbo <> EmptyString ->
  (forall i' scanner' w',
     processDML e fuel i scanner w dbo rpo = Done (i', scanner', w') ->
     database i' = dbo
     /\ createDatabaseQuery i' = "CREATE DATABASE " ++ dbo
     /\ exists tr,
          trace w' =
            (trace w ++ EvQuery ("CREATE DATABASE " ++ dbo) dbo :: tr)%list
          /\ Forall (only_writes_to dbo) tr)
  /\ (clock_releases e (PPS (config i)) -> ready i ->
      exists fuel' i' scanner' w',
        processDML e fuel' i scanner w dbo rpo = Done (i', scanner', w')).
Proof.
  intros Hdbo. split; [|apply processDML_returns].
  intros i' scanner' w' H. apply processDML_inv in H.
  destruct H as (i1 & w1 & start & i2 & w2 & Hsetup & Hscan & Hb & _).
  pose proof (dml_setup_fields i w dbo rpo) as Hs. rewrite Hsetup in Hs.
  destruct Hs as (_ & _ & _ & _ & _ & _ & Hover & _ & tr0 & Ht0 & Hall0).
  destruct (Hover Hdbo) as [Hd1 Hq1].
  apply scanDML_override in Hscan; [|exact Hdbo].
  destruct Hscan as (Hd2 & Hq2 & tr1 & Ht1 & Hall1).
  pose proof (batchWrite_effect e _ _ _ _ _ Hb)
    as (Hd3 & _ & _ & _ & _ & Hq3 & _).
  apply batchWrite_events in Hb. destruct Hb as (tr2 & Ht2 & Hall2).
  split; [congruence|]. split; [congruence|].
  exists (tr0 ++ tr1 ++ tr2)%list. split.
  - rewrite Ht2, Ht1, Ht0, Hq1, Hd1, <- !app_assoc. reflexivity.
  - rewrite Hd2, Hd1 in Hall2. rewrite Hd1 in Hall1.
    repeat (apply Forall_app; split); auto.
Qed.

(** C5 (as amended): a flush that the accumulator triggers on reaching
    [batchSize] leaves the batch empty with its capacity, so that the next
    accepted line starts a new batch; below [batchSize] the line is appended
    and nothing is written.  The flush itself, and so the flush at the end of
    the stream, leaves the batch as it is.  Starting below [batchSize] with a
    capacity of at least [batchSize], the batch is below [batchSize] after
    every accepted line, after the loop and after the whole second phase,
    and its capacity never changes. *)
Theorem batch_reset_and_bound (fuel : nat) (i : Importer) (w : World) :
  len (batch i) < batchSize -> batchSize <= Z.of_nat (cap (batch i)) ->
  (forall line start i' w',
     batchAccumulator e fuel i w line start = Done (i', w') ->
     cap (batch i') = cap (batch i)
     /\ len (batch i') < batchSize
     /\ (len (batch i) + 1 = batchSize ->
         elems (batch i') = [] /\ writes w' = S (writes w))
     /\ (len (batch i) + 1 < batchSize ->
         elems (batch i') = (elems (batch i) ++ [line])%list /\ w' = w))
  /\ (forall i' w', batchWrite e fuel i w = Done (i', w') ->
      batch i' = batch i)
  /\ (forall dbo rpo start lines i' w',
      scanDML e fuel dbo rpo start lines i w = Done (i', w') ->
      len (batch i') < batchSize /\ cap (batch i') = cap (batch i))
  /\ (forall scanner dbo rpo i' scanner' w',
      processDML e fuel i scanner w dbo rpo = Done (i', scanner', w') ->
      len (batch i') < batchSize /\ cap (batch i') = cap (batch i)).
Proof.
  intros Hlen Hcap. split; [|split; [|split]].
  - intros line start i' w' H.
    apply batchAccumulator_batching in H; [|exact Hlen|exact Hcap].
    destruct H as (Hc & Hfull & Hroom). split; [exact Hc|].
    split; [|split; assumption].
    destruct (Z.eq_dec (len (batch i) + 1) batchSize) as [Heq|Hne].
    + destruct (Hfull Heq) as [He _]. unfold len. rewrite He.
      unfold batchSize. cbn. lia.
    + destruct Hroom as [He _]; [lia|]. unfold len in *.
      rewrite He, length_app. cbn [List.length]. lia.
  - intros i' w' H. now apply batchWrite_effect in H.
  - intros dbo rpo start lines i' w' H.
    apply scanDML_batching in H; [|exact Hlen|exact Hcap].
    destruct H as (H1 & H2 & _). auto.
  - intros scanner dbo rpo i' scanner' w' H.
    apply processDML_batching in H; [|exact Hlen|exact Hcap].
    destruct H as (H1 & H2 & _). auto.
Qed.

End ProcessDML.

(** C10: a line that passes the test for either context prefix has a colon,
    the one of the prefix, so its split at the colons has two fields at
    least and the field of index 1 is there: the index never panics, on any
    line, and neither the loop nor the second phase as a whole ever does. *)
Theorem context_index_in_bounds :
  (forall line,
     HasPrefix line "# CONTEXT-DATABASE:" = true
     \/ HasPrefix line "# CONTEXT-RETENTION-POLICY:" = true ->
     (2 <= List.length (Split line ":"))%nat
     /\ exists field, nth_error (Split line ":") 1 = Some field
                      /\ context_value line = Done (TrimSpace field))
  /\ (forall e fuel i scanner w dbo rpo msg,
      processDML e fuel i scanner w dbo rpo <> Panic msg)
  /\ (forall e fuel dbo rpo start lines i w msg,
      scanDML e fuel dbo rpo start lines i w <> Panic msg).
Proof.
  split; [|split].
  - intros line H.
    assert (Hf : exists field, nth_error (Split line ":") 1 = Some field).
    { destruct H as [H|H];
        [now apply context_database_value
        |now apply context_retention_policy_value]. }
    destruct Hf as [field Hf]. split.
    + apply Nat.le_succ_l, nth_error_Some. congruence.
    + exists field. split; [exact Hf|]. unfold context_value. now rewrite Hf.
  - intros. apply processDML_no_panic.
  - intros. apply scanDML_no_panic.
Qed.

(** ** The first phase *)

Lemma last_cons (x d : string) (l : list string) : last (x :: l) d = last l x.
Proof.
  revert x d. induction l as [|y l IH]; intros x d; [reflexivity|].
  change (last (x :: y :: l) d) with (last (y :: l) d).
  now rewrite (IH y d), (IH y x).
Qed.

(** Before the marker every data line replaces the captured command. *)
Lemma scanDDL_marker (pre : list string) (marker : string)
    (rest : list string) (query : string) :
  HasPrefix marker "# DML" = true ->
  (forall l, In l pre -> HasPrefix l "# DML" = false) ->
  scanDDL (pre ++ marker :: rest) query
  = (last (filter is_data pre) query, rest).
Proof.
  intros Hm. revert query.
  induction pre as [|line pre IH]; intros query Hpre; cbn [app scanDDL].
  - now rewrite Hm.
  - rewrite (Hpre line) by now left.
    assert (Hpre' : forall l, In l pre -> HasPrefix l "# DML" = false)
      by (intros l Hl; apply Hpre; now right).
    cbn [filter]. unfold is_data at 1.
    destruct (HasPrefix line "#"); cbn [negb andb]; [now apply IH|].
    destruct (String.eqb (TrimSpace line) EmptyString); cbn [negb];
      [now apply IH|].
    rewrite last_cons. now apply IH.
Qed.

Lemma scanDDL_no_marker (lines : list string) (query : string) :
  (forall l, In l lines -> HasPrefix l "# DML" = false) ->
  scanDDL lines query = (last (filter is_data lines) query, []).
Proof.
  revert query.
  induction lines as [|line lines IH]; intros query Hall; cbn [scanDDL].
  - reflexivity.
  - rewrite (Hall line) by now left.
    assert (Hall' : forall l, In l lines -> HasPrefix l "# DML" = false)
      by (intros l Hl; apply Hall; now right).
    cbn [filter]. unfold is_data at 1.
    destruct (HasPrefix line "#"); cbn [negb andb]; [now apply IH|].
    destruct (String.eqb (TrimSpace line) EmptyString); cbn [negb];
      [now apply IH|].
    rewrite last_cons. now apply IH.
Qed.

(** C8: the first phase stops at the first line that starts with [# DML]
    and consumes it: the scanner is left with the lines after the marker.
    The command it captures is the last line before the marker that is
    neither a comment nor blank (the command the importer already held when
    there is none).  When no line starts with the marker, the phase reads
    the stream to its end and returns all the same, with the command
    captured in the same way. *)
Theorem processDDL_captures_last_command (i : Importer) (scanner : Scanner) :
  (forall pre marker rest,
     tokens scanner = (pre ++ marker :: rest)%list ->
     HasPrefix marker "# DML" = true ->
     (forall l, In l pre -> HasPrefix l "# DML" = false) ->
     processDDL i scanner
     = (set_createDatabaseQuery i
          (last (filter is_data pre) (createDatabaseQuery i)),
        {| tokens := rest; scan_err := scan_err scanner |}))
  /\ ((forall l, In l (tokens scanner) -> HasPrefix l "# DML" = false) ->
      processDDL i scanner
      = (set_createDatabaseQuery i
           (last (filter is_data (tokens scanner)) (createDatabaseQuery i)),
         {| tokens := []; scan_err := scan_err scanner |})).
Proof.
  split.
  - intros pre marker rest Htok Hm Hpre. unfold processDDL.
    now rewrite Htok, scanDDL_marker.
  - intros Hall. unfold processDDL. now rewrite scanDDL_no_marker.
Qed.

(** ** The context lines *)

Lemma Split_free (a : string) (sep : ascii) :
  free_of sep a = true -> Split a sep = [a].
Proof.
  induction a as [|c a IH]; cbn; [reflexivity|].
  destruct (Ascii.eqb c sep); cbn; [discriminate|].
  intros H. now rewrite (IH H).
Qed.

Lemma Split_app_sep (a r : string) (sep : ascii) :
  free_of sep a = true -> Split (a ++ String sep r) sep = a :: Split r sep.
Proof.
  induction a as [|c a IH]; cbn.
  - intros _. now rewrite Ascii.eqb_refl.
  - destruct (Ascii.eqb c sep); cbn; [discriminate|].
    intros H. now rewrite (IH H).
Qed.

Lemma after_first_app (a r : string) (sep : ascii) :
  free_of sep a = true -> after_first sep (a ++ String sep r) = r.
Proof.
  induction a as [|c a IH]; cbn.
  - intros _. now rewrite Ascii.eqb_refl.
  - destruct (Ascii.eqb c sep); cbn; [discriminate|]. exact IH.
Qed.

(** What the code reads from a context line: the trimmed text between the
    first colon and the second, or the end of the line when there is no
    second colon.  Only in the latter case is that all the text after the
    first colon. *)
Lemma context_value_between_colons (name value tail : string) :
  free_of ":" name = true -> free_of ":" value = true ->
  context_value (name ++ String ":" value) = Done (TrimSpace value)
  /\ after_first ":" (name ++ String ":" value) = value
  /\ context_value (name ++ String ":" (value ++ String ":" tail))
     = Done (TrimSpace value)
  /\ after_first ":" (name ++ String ":" (value ++ String ":" tail))
     = value ++ String ":" tail.
Proof.
  intros Hn Hv. unfold context_value.
  rewrite !Split_app_sep, Split_free, !after_first_app by assumption.
  repeat split.
Qed.

(** C6 (the code departs from it): on a database-context line whose value
    holds a colon the target database is not the trimmed text after the
    first colon: the split at every colon keeps the text up to the second
    colon only.  The same happens to a retention-policy line. *)
Theorem context_value_stops_at_second_colon :
  let line := "# CONTEXT-DATABASE: a:b" in
  let rpline := "# CONTEXT-RETENTION-POLICY: rp:1" in
  HasPrefix line "# CONTEXT-DATABASE:" = true
  /\ TrimSpace (after_first ":" line) = "a:b"
  /\ context_value line = Done "a"
  /\ (forall e fuel start rest i w,
       scanDML e fuel EmptyString EmptyString start (line :: rest) i w
       = scanDML e fuel EmptyString EmptyString start rest
           (set_database i "a") w)
  /\ TrimSpace (after_first ":" rpline) = "rp:1"
  /\ (forall e fuel start rest i w,
       scanDML e fuel EmptyString EmptyString start (rpline :: rest) i w
       = scanDML e fuel EmptyString EmptyString start rest
           (set_retentionPolicy i "rp") w).
Proof.
  cbv zeta. repeat split; vm_compute; reflexivity.
Qed.

(** ** The run as a whole *)

Lemma processDDL_fields (i : Importer) (scanner : Scanner) :
  config (fst (processDDL i scanner)) = config i
  /\ (ready i -> ready (fst (processDDL i scanner)))
  /\ scan_err (snd (processDDL i scanner)) = scan_err scanner.
Proof.
  unfold processDDL.
  destruct (scanDDL (tokens scanner) (createDatabaseQuery i)).
  split; [reflexivity|]. split; [|reflexivity]. intros H. exact H.
Qed.

(** C4: when the setup succeeds and the scanner reports no read error,
    [Import] returns an error exactly when [failedInserts] is positive at
    the end: ["1 point was not inserted"] for one failed insert,
    ["N points were not inserted"] for more, and no error ([nil]) for none.
    The run does return when the clock releases every throttled flush. *)
Theorem Import_reports_failed_inserts (e : Env) (fuel : nat) (i : Importer)
    (w : World) :
  new_client_err e = None -> ping_err e = None ->
  Path (config i) <> EmptyString -> open_err e = None ->
  (Compressed (config i) = true -> gzip_err e = None) ->
  scan_err (input e) = None ->
  (forall err i' w', Import e fuel i w = Done (err, i', w') ->
     (err <> None <-> 0 < failedInserts i')
     /\ (failedInserts i' = 0 -> err = None)
     /\ (failedInserts i' = 1 -> err = Some "1 point was not inserted")
     /\ (1 < failedInserts i' ->
         err = Some (Itoa (failedInserts i') ++ " points were not inserted")))
  /\ (clock_releases e (PPS (config i)) -> ready i ->
      exists fuel' err i' w', Import e fuel' i w = Done (err, i', w')).
Proof.
  intros Hcl Hping Hpath Hopen Hgz Hscan.
  assert (Hgz' : (if Compressed (config i) then gzip_err e else None) = None)
    by (destruct (Compressed (config i)); auto).
  apply String.eqb_neq in Hpath.
  pose proof (processDDL_fields i (input e)) as (Hcfg & Hrdy & Herr).
  split.
  - intros err i' w'. unfold Import.
    rewrite Hcl, Hping, Hpath, Hopen, Hgz'.
    destruct (processDDL i (input e)) as [i1 sc1]. cbn [fst snd] in *.
    unfold time_Now.
    destruct (processDML e fuel _ sc1 _ _ _) as [[[i2 sc2] w2]| |] eqn:Hp;
      cbn [bind]; try discriminate.
    apply processDML_inv in Hp.
    destruct Hp as (_ & _ & _ & _ & _ & _ & _ & _ & ->). cbn [scan_err].
    rewrite Herr, Hscan.
    destruct (Z.ltb_spec 0 (failedInserts i2)) as [Hpos|Hnon].
    + intros [= <- <- <-].
      split; [split; [intros _; exact Hpos|discriminate]|].
      split; [lia|]. split.
      * intros ->. reflexivity.
      * intros Hmany. apply Z.ltb_lt in Hmany. now rewrite Hmany.
    + intros [= <- <- <-].
      split; [split; [congruence|lia]|]. repeat split; intros; lia.
  - intros Hrel Hready. unfold Import.
    rewrite Hcl, Hping, Hpath, Hopen, Hgz'.
    destruct (processDDL i (input e)) as [i1 sc1]. cbn [fst snd] in *.
    unfold time_Now.
    set (i2 := set_lastWrite i1 _). set (w2 := Build_World _ _ _ _).
    destruct (processDML_returns e i2 sc1 w2 (DestinationDatabase (config i2))
                (RetentionPolicy (config i2)))
      as (fuel' & i3 & sc3 & w3 & Hp);
      [now rewrite <- Hcfg in Hrel|exact (Hrdy Hready)|].
    exists fuel'. rewrite Hp. cbn [bind].
    destruct (scan_err sc3); [eauto|].
    destruct (0 <? failedInserts i3); eauto.
Qed.

(** ** The importer at work on examples *)

(** The sample surroundings release every flush under any positive limit:
    the clock keeps advancing, so the rate of a batch falls to one point per
    second at most. *)
Lemma sample_env_releases (step : Z) (fails : nat -> bool)
    (lines : list string) (pps : Z) :
  0 < step -> 0 < pps -> clock_releases (sample_env step fails lines) pps.
Proof.
  intros Hs Hp n points last Hpts.
  set (K := Z.max 0 (last + 5000000000000)).
  exists (Z.to_nat K).
  unfold over_limit, currentPPS. cbn [now_at rate_of sample_env].
  assert (Ht : last + 5000000000000 <= Z.of_nat (n + Z.to_nat K) * step).
  { rewrite Nat2Z.inj_add, Z2Nat.id by lia. nia. }
  set (since := Sub (Z.of_nat (n + Z.to_nat K) * step) last).
  assert (Hsince : 5000000000000 <= since).
  { subst since. unfold Sub, int_min, int_max. lia. }
  destruct (Z.ltb_spec 0 since); [|lia].
  apply andb_false_iff. left. apply Z.ltb_ge.
  unfold batchSize in Hpts.
  rewrite Z.quot_div_nonneg by lia.
  transitivity 1; [|lia].
  apply Z.div_le_upper_bound; lia.
Qed.

Lemma processDML_counts_every_data_line_witness :
  exists i' scanner' w',
    processDML refusing_env 3 sample_importer sample_scanner world0
      EmptyString EmptyString = Done (i', scanner', w')
    /\ totalInserts i' + failedInserts i' = 2
    /\ exists fuel' j scanner'' v,
         processDML refusing_env fuel' sample_importer sample_scanner world0
           EmptyString EmptyString = Done (j, scanner'', v).
Proof.
  destruct (processDML_counts_every_data_line refusing_env 3 sample_importer
              sample_scanner world0 EmptyString EmptyString
              eq_refl eq_refl eq_refl ltac:(vm_compute; congruence))
    as [Hsafe Hlive].
  destruct (processDML refusing_env 3 sample_importer sample_scanner world0
              EmptyString EmptyString) as [[[i' scanner'] w']| |] eqn:Hrun.
  - exists i', scanner', w'. split; [reflexivity|].
    split; [exact (proj1 (Hsafe i' scanner' w' eq_refl))|].
    apply Hlive; [|reflexivity].
    apply sample_env_releases; reflexivity.
  - refute_run Hrun.
  - refute_run Hrun.
Defined.


Lemma batchWrite_resets_rate_window_witness :
  exists i' w',
    batchWrite refusing_env 3 loaded_importer world0 = Done (i', w')
    /\ throttlePointsWritten i' = 0
    /\ lastWrite i' = now_at refusing_env (Nat.pred (clock_reads w')).
Proof.
  destruct (batchWrite_resets_rate_window refusing_env 3 loaded_importer world0)
    as [Hsafe Hlive].
  destruct (Hlive 2%nat eq_refl ltac:(repeat constructor))
    as (i' & w' & Hrun).
  exists i', w'. split; [exact Hrun|].
  destruct (Hsafe i' w' Hrun) as (Hz & Hl & _). split; assumption.
Defined.

Lemma batchWrite_accounts_whole_batch_witness :
  (exists i' w',
     batchWrite refusing_env 3 loaded_importer world0 = Done (i', w')
     /\ failedInserts i' = 2 /\ totalInserts i' = 0
     /\ In (EvStdout (Join ["m,t=1 v=1 0"; "m,t=2 v=2 1"] newline ++ newline))
          (trace w'))
  /\ exists i' scanner' w',
       processDML refusing_env 3 sample_importer sample_scanner world0
         EmptyString EmptyString = Done (i', scanner', w')
       /\ writes w' = 1%nat.
Proof.
  split.
  - destruct (batchWrite_accounts_whole_batch refusing_env 3 loaded_importer
                world0) as (Hsafe & Hlive & _).
    destruct (Hlive 2%nat eq_refl ltac:(repeat constructor))
      as (i' & w' & Hrun).
    exists i', w'. split; [exact Hrun|].
    destruct (Hsafe i' w' Hrun) as (k & Htrace & _ & _ & Hcount).
    change (write_answer refusing_env loaded_importer world0)
      with (Some "write failed") in Htrace, Hcount.
    destruct Hcount as [Hf Ht]. split; [exact Hf|]. split; [exact Ht|].
    rewrite Htrace. apply in_or_app. right. apply in_or_app. right.
    right. right. right. left. reflexivity.
  - destruct (batchWrite_accounts_whole_batch refusing_env 3 sample_importer
                world0) as (_ & _ & Hrun).
    destruct (processDML refusing_env 3 sample_importer sample_scanner world0
                EmptyString EmptyString) as [[[i' scanner'] w']| |] eqn:Hp.
    + exists i', scanner', w'. split; [reflexivity|].
      apply Nat2Z.inj.
      exact (Hrun sample_scanner EmptyString EmptyString i' scanner' w'
               eq_refl Hp).
    + refute_run Hp.
    + refute_run Hp.
Defined.

Lemma Import_reports_failed_inserts_witness :
  exists err i' w',
    Import refusing_env 3 sample_importer world0 = Done (err, i', w')
    /\ failedInserts i' = 3
    /\ err = Some "3 points were not inserted".
Proof.
  destruct (Import_reports_failed_inserts refusing_env 3 sample_importer world0
              eq_refl eq_refl ltac:(discriminate) eq_refl (fun _ => eq_refl)
              eq_refl) as [Hsafe _].
  destruct (Import refusing_env 3 sample_importer world0)
    as [[[err i'] w']| |] eqn:Hrun.
  - exists err, i', w'. split; [reflexivity|].
    assert (Hf : failedInserts i' = 3).
    { vm_compute in Hrun. injection Hrun as _ <- _. reflexivity. }
    split; [exact Hf|].
    destruct (Hsafe err i' w' eq_refl) as (_ & _ & _ & Hmany).
    rewrite Hmany; rewrite Hf; reflexivity.
  - refute_run Hrun.
  - refute_run Hrun.
Defined.

Lemma batch_reset_and_bound_witness :
  exists i' w',
    batchAccumulator accepting_env 1 nearly_full_importer world0
      "m,t=9 v=9 9" 0 = Done (i', w')
    /\ elems (batch i') = []
    /\ cap (batch i') = Z.to_nat batchSize
    /\ writes w' = 1%nat.
Proof.
  destruct (batch_reset_and_bound accepting_env 1 nearly_full_importer world0
              ltac:(vm_compute; reflexivity) ltac:(vm_compute; congruence))
    as (Hstep & _).
  destruct (batchAccumulator_unlimited accepting_env 0 nearly_full_importer
              world0 "m,t=9 v=9 9" 0 eq_refl) as [[i' w'] Hrun].
  exists i', w'. split; [exact Hrun|].
  destruct (Hstep "m,t=9 v=9 9" 0 i' w' Hrun) as (Hcap & _ & Hfull & _).
  destruct Hfull as [He Hw]; [vm_compute; reflexivity|].
  split; [exact He|]. split; [exact Hcap|exact Hw].
Defined.

(** The flush at the end of the stream does not empty the batch: after the
    second phase over a single data line the line is still in it.  So not
    every flush leaves the accumulator empty. *)
Lemma end_of_stream_flush_keeps_batch :
  ~ (forall (e : Env) (fuel : nat) (i : Importer) (scanner : Scanner)
            (w : World) (dbo rpo : string) (i' : Importer)
            (scanner' : Scanner) (w' : World),
       processDML e fuel i scanner w dbo rpo = Done (i', scanner', w') ->
       elems (batch i') = []).
Proof.
  intros H.
  pose proof (H accepting_env 3%nat sample_importer
                {| tokens := ["m,t=1 v=1 0"]; scan_err := None |} world0
                EmptyString EmptyString) as H1.
  vm_compute in H1. specialize (H1 _ _ _ eq_refl). discriminate H1.
Qed.

Lemma processDML_database_override_witness :
  exists i' scanner' w',
    processDML accepting_env 3 override_importer sample_scanner world0
      "bar" EmptyString = Done (i', scanner', w')
    /\ database i' = "bar"
    /\ createDatabaseQuery i' = "CREATE DATABASE bar".
Proof.
  destruct (processDML_database_override accepting_env 3 override_importer
              sample_scanner world0 "bar" EmptyString ltac:(discriminate))
    as [Hsafe _].
  destruct (processDML accepting_env 3 override_importer sample_scanner world0
              "bar" EmptyString) as [[[i' scanner'] w']| |] eqn:Hrun.
  - exists i', scanner', w'. split; [reflexivity|].
    destruct (Hsafe i' scanner' w' eq_refl) as (Hd & Hq & _).
    split; assumption.
  - refute_run Hrun.
  - refute_run Hrun.
Defined.

Lemma processDDL_captures_last_command_witness :
  processDDL sample_importer (input accepting_env)
  = (set_createDatabaseQuery sample_importer "CREATE DATABASE foo",
     {| tokens := ["# CONTEXT-DATABASE: foo"; "m,t=1 v=1 0"; "m,t=2 v=2 1";
                   "m,t=3 v=3 2"];
        scan_err := None |})
  /\ processDDL sample_importer
       {| tokens := ["CREATE DATABASE foo"; "CREATE DATABASE baz"; "# DDL"];
          scan_err := None |}
     = (set_createDatabaseQuery sample_importer "CREATE DATABASE baz",
        {| tokens := []; scan_err := None |}).
Proof.
  split.
  - apply (proj1 (processDDL_captures_last_command sample_importer
                    (input accepting_env))
             ["# DDL"; "CREATE DATABASE foo"] "# DML"
             ["# CONTEXT-DATABASE: foo"; "m,t=1 v=1 0"; "m,t=2 v=2 1";
              "m,t=3 v=3 2"]); [reflexivity|reflexivity|].
    intros l [<-|[<-|[]]]; reflexivity.
  - apply (proj2 (processDDL_captures_last_command sample_importer
                    {| tokens := ["CREATE DATABASE foo"; "CREATE DATABASE baz";
                                  "# DDL"];
                       scan_err := None |})).
    intros l [<-|[<-|[<-|[]]]]; reflexivity.
Defined.

Lemma context_index_in_bounds_witness :
  (2 <= List.length (Split "# CONTEXT-DATABASE: a:b" ":"))%nat
  /\ (2 <= List.length (Split "# CONTEXT-RETENTION-POLICY:" ":"))%nat.
Proof.
  split.
  - exact (proj1 (proj1 context_index_in_bounds "# CONTEXT-DATABASE: a:b"
                    (or_introl eq_refl))).
  - exact (proj1 (proj1 context_index_in_bounds "# CONTEXT-RETENTION-POLICY:"
                    (or_intror eq_refl))).
Defined.

(** * Beyond the claims: the rest of the importer's behaviour *)

(** ** A flush, step by step *)

Section Flush.

Variable e : Env.

(** Everything about a flush that returns, with the number [k] of failed
    rate checks before the write. *)
Lemma batchWrite_run (fuel : nat) (i : Importer) (w : World)
    (i' : Importer) (w' : World) :
  batchWrite e fuel i w = Done (i', w') ->
  exists k,
    (k < fuel)%nat
    /\ (forall j, (j < k)%nat -> throttled_at e i w j = true)
    /\ throttled_at e i w k = false
    /\ clock_reads w' = (clock_reads w + k + 2)%nat
    /\ trace w' =
         (trace w ++ wait_events e (clock_reads w) k
            ++ EvNow (now_at e (clock_reads w + k)) :: the_write e i w
            :: failure_events i (write_answer e i w)
            ++ [EvNow (now_at e (S (clock_reads w + k)))])%list.
Proof.
  intros H. apply batchWrite_Done_inv in H.
  destruct H as (k & Hk & Hlt & Hpass & Hr).
  exists k. repeat (split; [assumption|]).
  pose proof (write_out_fields e i (snd (time_Now e (wait e k w)))) as Hf.
  pose proof (batchWrite_trace e k i w) as Ht.
  destruct (write_world e k w) as (Hc & _).
  rewrite <- Hr in Hf, Ht. cbn [snd] in Ht.
  destruct Hf as (_ & _ & _ & _ & _ & _ & _ & _ & Hc' & _).
  split; [lia|exact Ht].
Qed.

(** A flush whose every rate check fails never returns. *)
Lemma batchWrite_starves (fuel : nat) (i : Importer) (w : World) :
  (forall j, throttled_at e i w j = true) ->
  batchWrite e fuel i w = OutOfFuel.
Proof.
  revert i w. induction fuel as [|fuel IH]; intros i w Hall; [reflexivity|].
  rewrite batchWrite_unfold, (Hall 0%nat). apply IH.
  intros j. rewrite throttled_at_retry. apply Hall.
Qed.

(** What the status report of [batchAccumulator] adds to the world. *)
Lemma batchAccumulator_cases (fuel : nat) (i : Importer) (w : World)
    (line : string) (start : Time) (i' : Importer) (w' : World) :
  batchAccumulator e fuel i w line start = Done (i', w') ->
  let i1 := set_batch i (append (growslice e) (batch i) line) in
  (len (batch i) + 1 <> batchSize /\ i' = i1 /\ w' = w)
  \/ (len (batch i) + 1 = batchSize
      /\ exists i2 w2,
           batchWrite e fuel i1 w = Done (i2, w2)
           /\ i' = set_batch i2 (reslice0 (batch i2))
           /\ ((Z.rem (wrap (totalInserts i2 + failedInserts i2)) 100000 <> 0
                /\ w' = w2)
               \/ (Z.rem (wrap (totalInserts i2 + failedInserts i2)) 100000 = 0
                   /\ exists since,
                        trace w' = (trace w2
                                      ++ [EvNow (now_at e (clock_reads w2));
                                          EvLog (LogStatus
                                            (wrap (totalInserts i2
                                                   + failedInserts i2))
                                            since)])%list
                        /\ writes w' = writes w2
                        /\ queries w' = queries w2))).
Proof.
  unfold batchAccumulator. cbn [batch set_batch]. rewrite append_len.
  destruct (Z.eqb_spec (len (batch i) + 1) batchSize) as [Heq|Hne].
  - destruct (batchWrite e fuel _ w) as [[i2 w2]| |]; cbn [bind];
      try discriminate.
    cbn [totalInserts failedInserts set_batch].
    destruct (Z.eqb_spec (Z.rem (wrap (totalInserts i2 + failedInserts i2))
                            100000) 0) as [Hz|Hnz];
      intros [= <- <-]; right; (split; [exact Heq|]);
      exists i2, w2; (split; [reflexivity|]); (split; [reflexivity|]).
    + right. split; [exact Hz|]. eexists. cbn.
      rewrite <- app_assoc. repeat split.
    + left. auto.
  - intros [= <- <-]. left. auto.
Qed.

End Flush.

(** ** What a run adds to the trace *)

Section Events.

Variable e : Env.

(** A property [Q] of events that holds of every reading of the clock, tick,
    log line of the loop and line on standard output, and of a write whenever
    its database and retention policy are related by [R]. *)
Variable Q : event -> Prop.
Variable R : string -> string -> Prop.
Hypothesis Q_now : forall t, Q (EvNow t).
Hypothesis Q_tick : Q EvTick.
Hypothesis Q_write_error : forall msg, Q (EvLog (LogWriteError msg)).
Hypothesis Q_status : forall p s, Q (EvLog (LogStatus p s)).
Hypothesis Q_stdout : forall s, Q (EvStdout s).
Hypothesis Q_write :
  forall body db rp p c a, R db rp -> Q (EvWrite body db rp p c a).

Lemma wait_events_gen (n k : nat) : Forall Q (wait_events e n k).
Proof.
  revert n. induction k as [|k IH]; intros n; cbn [wait_events];
    repeat constructor; auto.
Qed.

Lemma batchWrite_events_gen (fuel : nat) (i : Importer) (w : World)
    (i' : Importer) (w' : World) :
  batchWrite e fuel i w = Done (i', w') ->
  R (database i) (retentionPolicy i) ->
  exists tr, trace w' = (trace w ++ tr)%list /\ Forall Q tr.
Proof.
  intros H HR. apply batchWrite_run in H.
  destruct H as (k & _ & _ & _ & _ & Ht).
  eexists. split; [exact Ht|].
  apply Forall_app. split; [apply wait_events_gen|].
  constructor; [apply Q_now|]. constructor; [now apply Q_write|].
  apply Forall_app. split.
  - destruct (write_answer e i w); repeat constructor; auto.
  - repeat constructor. apply Q_now.
Qed.

Lemma batchAccumulator_events_gen (fuel : nat) (i : Importer) (w : World)
    (line : string) (start : Time) (i' : Importer) (w' : World) :
  batchAccumulator e fuel i w line start = Done (i', w') ->
  R (database i) (retentionPolicy i) ->
  exists tr, trace w' = (trace w ++ tr)%list /\ Forall Q tr.
Proof.
  intros H HR. apply batchAccumulator_cases in H. cbv zeta in H.
  destruct H as [(_ & _ & ->)|(_ & i2 & w2 & Hb & _ & Hw)].
  - exists []. now rewrite app_nil_r.
  - apply batchWrite_events_gen in Hb; [|exact HR].
    destruct Hb as (tr & Ht & Hall).
    destruct Hw as [[_ ->]|(_ & since & Ht' & _)].
    + eauto.
    + rewrite Ht', Ht, <- app_assoc. eexists. split; [reflexivity|].
      apply Forall_app. split; [exact Hall|]. repeat constructor; auto.
Qed.

(** Over the loop, as long as the context lines keep [R]. *)
Lemma scanDML_events_gen (fuel : nat) (dbo rpo : string) (start : Time)
    (lines : list string) (i : Importer) (w : World)
    (i' : Importer) (w' : World) :
  (forall j line j1,
     R (database j) (retentionPolicy j) ->
     apply_context dbo rpo line j = Done j1 ->
     R (database j1) (retentionPolicy j1)) ->
  scanDML e fuel dbo rpo start lines i w = Done (i', w') ->
  R (database i) (retentionPolicy i) ->
  R (database i') (retentionPolicy i')
  /\ exists tr, trace w' = (trace w ++ tr)%list /\ Forall Q tr.
Proof.
  intros Hctx H HR.
  pose (P := fun (_ : Z) (j : Importer) (v : World) =>
    R (database j) (retentionPolicy j)
    /\ exists tr, trace v = (trace w ++ tr)%list /\ Forall Q tr).
  apply (scanDML_invariant e P fuel dbo rpo start) with (n := 0) in H;
    [exact H| | |].
  - intros n j v line j1 (Hj & Ht) Hc. split; [|exact Ht]. eauto.
  - intros n j v line j' v' _ (Hj & tr & Ht & Hall) Ha.
    pose proof (batchAccumulator_same e _ _ _ _ _ _ _ Ha) as (Hd & Hr & _).
    apply batchAccumulator_events_gen in Ha; [|exact Hj].
    destruct Ha as (tr' & Ht' & Hall'). split; [now rewrite Hd, Hr|].
    exists (tr ++ tr')%list. rewrite Ht', Ht, app_assoc.
    split; [reflexivity|]. now apply Forall_app.
  - split; [exact HR|]. exists []. now rewrite app_nil_r.
Qed.

End Events.

(** ** The second phase, from its setup to its closing flush *)

Section SecondPhase.

Variable e : Env.

(** What [execute] does to the world: one query, and its error in the log
    when it has one. *)
Lemma execute_exact (i : Importer) (w : World) (command : string) :
  exists tr,
    (tr = [] \/ exists err, tr = [EvLog (LogError err)])
    /\ execute e i w command
       = {| clock_reads := clock_reads w; writes := writes w;
            queries := S (queries w);
            trace := trace w ++ EvQuery command (database i) :: tr |}.
Proof.
  unfold execute, emit.
  destruct (query_answer_at e (queries w) command (database i))
    as [err|[err|]]; cbn [clock_reads writes queries trace].
  - exists [EvLog (LogError err)]. split; [eauto|].
    now rewrite <- app_assoc.
  - exists [EvLog (LogError err)]. split; [eauto|].
    now rewrite <- app_assoc.
  - exists []. auto.
Qed.

(** The setup of the second phase in full: the targets after the overrides,
    the one query, its optional error in the log, the reading of the start
    time. *)
Lemma dml_setup_exact (i : Importer) (w : World) (dbo rpo : string) :
  let '(i1, w1, start) := dml_setup e i w dbo rpo in
  database i1 = (if String.eqb dbo EmptyString then database i else dbo)
  /\ retentionPolicy i1
     = (if String.eqb rpo EmptyString then retentionPolicy i else rpo)
  /\ createDatabaseQuery i1
     = (if String.eqb dbo EmptyString then createDatabaseQuery i
        else "CREATE DATABASE " ++ dbo)
  /\ totalCommands i1 = wrap (totalCommands i + 1)
  /\ queries w1 = S (queries w)
  /\ start = now_at e (clock_reads w)
  /\ exists tr,
       trace w1 = (trace w ++ EvQuery (createDatabaseQuery i1) (database i1)
                     :: tr ++ [EvNow start])%list
       /\ (tr = [] \/ exists err, tr = [EvLog (LogError err)]).
Proof.
  unfold dml_setup, queryExecutor.
  match goal with
  | |- context [execute e ?j w ?c] =>
      destruct (execute_exact j w c) as (tr & Htr & ->)
  end.
  unfold time_Now.
  destruct (String.eqb dbo EmptyString), (String.eqb rpo EmptyString);
    cbn [negb database retentionPolicy createDatabaseQuery totalCommands
         set_database set_createDatabaseQuery set_retentionPolicy
         set_totalCommands queries trace clock_reads];
    repeat (split; [reflexivity|]);
    exists tr; rewrite <- app_assoc; (split; [reflexivity|exact Htr]).
Qed.

(** The context tests, computed. *)
Lemma apply_context_eq (dbo rpo line : string) (i : Importer) :
  apply_context dbo rpo line i
  = Done (set_retentionPolicy
            (set_database i
               (context_target dbo "# CONTEXT-DATABASE:" line (database i)))
            (context_target rpo "# CONTEXT-RETENTION-POLICY:" line
               (retentionPolicy i))).
Proof.
  unfold apply_context, context_target, context_value.
  destruct (String.eqb dbo EmptyString && HasPrefix line "# CONTEXT-DATABASE:")
    eqn:Hd.
  - apply andb_true_iff in Hd. destruct Hd as [_ Hd].
    destruct (context_database_value line Hd) as [f Hf]. rewrite Hf.
    cbn [bind].
    destruct (String.eqb rpo EmptyString
              && HasPrefix line "# CONTEXT-RETENTION-POLICY:"); cbn [bind];
      destruct i; reflexivity.
  - cbn [bind].
    destruct (String.eqb rpo EmptyString
              && HasPrefix line "# CONTEXT-RETENTION-POLICY:") eqn:Hr.
    + apply andb_true_iff in Hr. destruct Hr as [_ Hr].
      destruct (context_retention_policy_value line Hr) as [f Hf].
      rewrite Hf. cbn [bind]. destruct i; reflexivity.
    + destruct i; reflexivity.
Qed.

(** What the loop never touches. *)
Lemma scanDML_same (fuel : nat) (dbo rpo : string) (start : Time)
    (lines : list string) (i : Importer) (w : World)
    (i' : Importer) (w' : World) :
  scanDML e fuel dbo rpo start lines i w = Done (i', w') ->
  config i' = config i /\ totalCommands i' = totalCommands i
  /\ createDatabaseQuery i' = createDatabaseQuery i
  /\ queries w' = queries w.
Proof.
  intros H.
  pose (P := fun (_ : Z) (j : Importer) (v : World) =>
    config j = config i /\ totalCommands j = totalCommands i
    /\ createDatabaseQuery j = createDatabaseQuery i
    /\ queries v = queries w).
  apply (scanDML_invariant e P fuel dbo rpo start) with (n := 0) in H;
    [exact H| | |].
  - intros n j v line j1 Hj Hc. rewrite apply_context_eq in Hc.
    injection Hc as <-. exact Hj.
  - intros n j v line j' v' _ (H1 & H2 & H3 & H4) Ha.
    apply batchAccumulator_same in Ha.
    destruct Ha as (_ & _ & Hc & Ht & Hq & Hw). unfold P.
    repeat split; congruence.
  - unfold P. auto.
Qed.

End SecondPhase.

Section RunEvents.

Variable e : Env.
Variable Q : event -> Prop.
Variable R : string -> string -> Prop.
Hypothesis Q_now : forall t, Q (EvNow t).
Hypothesis Q_tick : Q EvTick.
Hypothesis Q_error : forall msg, Q (EvLog (LogError msg)).
Hypothesis Q_write_error : forall msg, Q (EvLog (LogWriteError msg)).
Hypothesis Q_status : forall p s, Q (EvLog (LogStatus p s)).
Hypothesis Q_stdout : forall s, Q (EvStdout s).
Hypothesis Q_write :
  forall body db rp p c a, R db rp -> Q (EvWrite body db rp p c a).

(** After its one query, all that the second phase adds to the trace
    satisfies [Q], as long as the targets it starts with are related by [R]
    and the context lines keep them so. *)
Lemma processDML_events_gen (fuel : nat) (i : Importer) (scanner : Scanner)
    (w : World) (dbo rpo : string) (i' : Importer) (scanner' : Scanner)
    (w' : World) :
  (forall j line j1,
     R (database j) (retentionPolicy j) ->
     apply_context dbo rpo line j = Done j1 ->
     R (database j1) (retentionPolicy j1)) ->
  R (if String.eqb dbo EmptyString then database i else dbo)
    (if String.eqb rpo EmptyString then retentionPolicy i else rpo) ->
  processDML e fuel i scanner w dbo rpo = Done (i', scanner', w') ->
  R (database i') (retentionPolicy i')
  /\ exists tr,
       trace w' =
         (trace w
            ++ EvQuery (if String.eqb dbo EmptyString
                        then createDatabaseQuery i
                        else "CREATE DATABASE " ++ dbo)
                 (if String.eqb dbo EmptyString then database i else dbo)
            :: tr)%list
       /\ Forall Q tr.
Proof.
  intros Hctx HR H. apply processDML_inv in H.
  destruct H as (i1 & w1 & start & i2 & w2 & Hsetup & Hscan & Hb & _).
  pose proof (dml_setup_exact e i w dbo rpo) as Hs. rewrite Hsetup in Hs.
  destruct Hs as (Hd1 & Hr1 & Hq1 & _ & _ & _ & tr0 & Ht0 & Hlog).
  rewrite <- Hd1, <- Hr1 in HR.
  apply (scanDML_events_gen e Q R Q_now Q_tick Q_write_error Q_status
           Q_stdout Q_write) in Hscan; [|exact Hctx|exact HR].
  destruct Hscan as (HR2 & tr1 & Ht1 & Hall1).
  pose proof (batchWrite_effect e _ _ _ _ _ Hb) as (Hd3 & Hr3 & _).
  apply (batchWrite_events_gen e Q R Q_now Q_tick Q_write_error Q_stdout
           Q_write) in Hb; [|exact HR2].
  destruct Hb as (tr2 & Ht2 & Hall2).
  split; [now rewrite Hd3, Hr3|].
  exists ((tr0 ++ [EvNow start]) ++ tr1 ++ tr2)%list. split.
  - rewrite Ht2, Ht1, Ht0, Hq1, Hd1.
    repeat (rewrite <- app_assoc || rewrite <- app_comm_cons). reflexivity.
  - repeat (apply Forall_app; split); auto.
    destruct Hlog as [->|[err ->]]; repeat constructor; auto.
Qed.

End RunEvents.

(** ** Queries, retention policy and the closing summary *)

Section Reports.

Variable e : Env.

(** X4: the second phase issues exactly one query, and issues it before
    anything else: the captured schema command against the database the
    importer holds, or [CREATE DATABASE <override>] against the override.
    The query is sent even when the command is empty and whatever its answer;
    every write comes after it, and [totalCommands] grows by one. *)
Theorem processDML_single_query (fuel : nat) (i : Importer)
    (scanner : Scanner) (w : World) (dbo rpo : string)
    (i' : Importer) (scanner' : Scanner) (w' : World) :
  processDML e fuel i scanner w dbo rpo = Done (i', scanner', w') ->
  totalCommands i' = wrap (totalCommands i + 1)
  /\ queries w' = S (queries w)
  /\ exists tr,
       trace w' =
         (trace w
            ++ EvQuery (if String.eqb dbo EmptyString
                        then createDatabaseQuery i
                        else "CREATE DATABASE " ++ dbo)
                 (if String.eqb dbo EmptyString then database i else dbo)
            :: tr)%list
       /\ Forall (fun ev => is_query ev = false) tr.
Proof.
  intros H.
  pose proof (processDML_events_gen e (fun ev => is_query ev = false)
                (fun _ _ => True) (fun _ => eq_refl) eq_refl
                (fun _ => eq_refl) (fun _ => eq_refl) (fun _ _ => eq_refl)
                (fun _ => eq_refl) (fun _ _ _ _ _ _ _ => eq_refl)
                fuel i scanner w dbo rpo i' scanner' w'
                (fun _ _ _ _ _ => I) I H) as (_ & Htr).
  apply processDML_inv in H.
  destruct H as (i1 & w1 & start & i2 & w2 & Hsetup & Hscan & Hb & _).
  pose proof (dml_setup_exact e i w dbo rpo) as Hs. rewrite Hsetup in Hs.
  destruct Hs as (_ & _ & _ & Hc1 & Hq1 & _).
  apply scanDML_same in Hscan. destruct Hscan as (_ & Hc2 & _ & Hq2).
  apply batchWrite_effect in Hb.
  destruct Hb as (_ & _ & _ & _ & Hc3 & _ & _ & Hq3 & _).
  split; [congruence|]. split; [congruence|exact Htr].
Qed.

(** X5: with a retention-policy override every write of the run carries the
    override, whatever retention-policy context lines the stream holds, and
    the importer ends with the override as its retention policy. *)
Theorem processDML_retention_policy_override (fuel : nat) (i : Importer)
    (scanner : Scanner) (w : World) (dbo rpo : string)
    (i' : Importer) (scanner' : Scanner) (w' : World) :
  rpo <> EmptyString ->
  processDML e fuel i scanner w dbo rpo = Done (i', scanner', w') ->
  retentionPolicy i' = rpo
  /\ exists tr, trace w' = (trace w ++ tr)%list
                /\ Forall (writes_with_policy rpo) tr.
Proof.
  intros Hrpo H. apply String.eqb_neq in Hrpo.
  pose proof (processDML_events_gen e (writes_with_policy rpo)
                (fun _ rp => rp = rpo) (fun _ => I) I
                (fun _ => I) (fun _ => I) (fun _ _ => I)
                (fun _ => I) (fun _ _ _ _ _ _ H => H)
                fuel i scanner w dbo rpo i' scanner' w') as Hgen.
  destruct Hgen as (Hr & tr & Ht & Hall); [| |exact H|].
  - intros j line j1 Hj Hc. rewrite apply_context_eq in Hc.
    injection Hc as <-. cbn. unfold context_target. now rewrite Hrpo.
  - now rewrite Hrpo.
  - split; [exact Hr|]. eexists. split; [exact Ht|].
    constructor; [exact I|exact Hall].
Qed.

(** [Import] past its setup: the second phase on what the first phase
    left, then the summary and the error to return. *)
Lemma Import_unfold (fuel : nat) (i : Importer) (w : World) :
  new_client_err e = None -> ping_err e = None ->
  Path (config i) <> EmptyString -> open_err e = None ->
  (if Compressed (config i) then gzip_err e else None) = None ->
  Import e fuel i w =
    ('(i', scanner', w2) <-
       processDML e fuel
         (set_lastWrite (fst (processDDL i (input e)))
            (now_at e (clock_reads w)))
         (snd (processDDL i (input e))) (snd (time_Now e w))
         (DestinationDatabase (config i)) (RetentionPolicy (config i)) ;;
     Done (match scan_err scanner' with
           | Some err => Some ("reading standard input: " ++ err)
           | None =>
               if 0 <? failedInserts i'
               then Some (Itoa (failedInserts i') ++ " point"
                          ++ (if 1 <? failedInserts i'
                              then "s were" else " was")
                          ++ " not inserted")
               else None
           end, i', summary i' w2)).
Proof.
  intros Hcl Hping Hpath Hopen Hgz. apply String.eqb_neq in Hpath.
  unfold Import. rewrite Hcl, Hping, Hpath, Hopen, Hgz.
  unfold processDDL.
  destruct (scanDDL (tokens (input e)) (createDatabaseQuery i))
    as [query rest].
  cbn [fst snd time_Now config set_lastWrite set_createDatabaseQuery].
  destruct (processDML e fuel _ _ _ _ _) as [[[i2 sc2] w2]| |];
    cbn [bind]; try reflexivity.
  destruct (scan_err sc2); [reflexivity|].
  destruct (0 <? failedInserts i2); reflexivity.
Qed.

Lemma Import_inv (fuel : nat) (i : Importer) (w : World)
    (r : option string) (i' : Importer) (w' : World) :
  new_client_err e = None -> ping_err e = None ->
  Path (config i) <> EmptyString -> open_err e = None ->
  (if Compressed (config i) then gzip_err e else None) = None ->
  Import e fuel i w = Done (r, i', w') ->
  exists w2 scanner',
    processDML e fuel
      (set_lastWrite (fst (processDDL i (input e)))
         (now_at e (clock_reads w)))
      (snd (processDDL i (input e))) (snd (time_Now e w))
      (DestinationDatabase (config i)) (RetentionPolicy (config i))
    = Done (i', scanner', w2)
    /\ w' = summary i' w2
    /\ r = match scan_err (input e) with
           | Some err => Some ("reading standard input: " ++ err)
           | None =>
               if 0 <? failedInserts i'
               then Some (Itoa (failedInserts i') ++ " point"
                          ++ (if 1 <? failedInserts i'
                              then "s were" else " was")
                          ++ " not inserted")
               else None
           end.
Proof.
  intros Hcl Hping Hpath Hopen Hgz H.
  rewrite Import_unfold in H by assumption.
  pose proof (processDDL_fields i (input e)) as (_ & _ & Herr).
  match type of H with
  | bind ?run _ = _ => destruct run as [[[i2 sc2] w2]| |] eqn:Hp
  end; cbn [bind] in H; try discriminate.
  pose proof (processDML_inv e _ _ _ _ _ _ _ _ _ Hp)
    as (_ & _ & _ & _ & _ & _ & _ & _ & Hsc).
  injection H as <- <- <-.
  exists w2, sc2. split; [reflexivity|]. split; [reflexivity|].
  rewrite Hsc. cbn [scan_err]. now rewrite Herr.
Qed.

(** X1: [Import] returns [nil] only when every step of the setup succeeded,
    the scanner met no read error and no insert is counted as failed.  When
    the client cannot be created, the server does not answer the ping or no
    path is configured, it returns an error at once, for any fuel, with the
    importer and the world untouched: nothing is queried, written or read. *)
Theorem Import_nil_means_success (fuel : nat) (i : Importer) (w : World) :
  (forall i' w',
     Import e fuel i w = Done (None, i', w') ->
     new_client_err e = None /\ ping_err e = None
     /\ Path (config i) <> EmptyString /\ open_err e = None
     /\ (Compressed (config i) = true -> gzip_err e = None)
     /\ scan_err (input e) = None /\ failedInserts i' <= 0)
  /\ (new_client_err e <> None \/ ping_err e <> None
      \/ Path (config i) = EmptyString ->
      exists msg, Import e fuel i w = Done (Some msg, i, w)).
Proof.
  split.
  - intros i' w' H.
    destruct (new_client_err e) as [err|] eqn:Hcl;
      [unfold Import in H; rewrite Hcl in H; discriminate|].
    destruct (ping_err e) as [err|] eqn:Hping;
      [unfold Import in H; rewrite Hcl, Hping in H; discriminate|].
    destruct (String.eqb_spec (Path (config i)) EmptyString) as [Hp|Hp];
      [unfold Import in H; rewrite Hcl, Hping in H;
       apply String.eqb_eq in Hp; rewrite Hp in H; discriminate|].
    destruct (open_err e) as [err|] eqn:Hopen;
      [unfold Import in H; apply String.eqb_neq in Hp;
       rewrite Hcl, Hping, Hp, Hopen in H; discriminate|].
    destruct (if Compressed (config i) then gzip_err e else None)
      as [err|] eqn:Hgz;
      [unfold Import in H; apply String.eqb_neq in Hp;
       rewrite Hcl, Hping, Hp, Hopen, Hgz in H; discriminate|].
    apply Import_inv in H; try assumption.
    destruct H as (w2 & sc' & _ & _ & Hr).
    assert (Hs : scan_err (input e) = None /\ failedInserts i' <= 0).
    { destruct (scan_err (input e)); [discriminate|].
      destruct (Z.ltb_spec 0 (failedInserts i')); [discriminate|]. auto. }
    destruct Hs as [Hs Hf]. repeat split; auto; try congruence.
    intros Hc. now rewrite Hc in Hgz.
  - intros H. unfold Import.
    destruct (new_client_err e) as [err|]; [eauto|].
    destruct (ping_err e) as [err|]; [eauto|].
    destruct H as [H|[H|H]]; try congruence.
    rewrite H. cbn. eauto.
Qed.

(** The first phase changes nothing of the importer but the command. *)
Lemma processDDL_frame (i : Importer) (scanner : Scanner) :
  fst (processDDL i scanner)
  = set_createDatabaseQuery i
      (fst (scanDDL (tokens scanner) (createDatabaseQuery i)))
  /\ tokens (snd (processDDL i scanner))
     = snd (scanDDL (tokens scanner) (createDatabaseQuery i)).
Proof.
  unfold processDDL.
  destruct (scanDDL (tokens scanner) (createDatabaseQuery i)).
  split; reflexivity.
Qed.

(** X2: a read error of the scanner takes precedence over failed inserts.
    Once the setup has succeeded, [Import] still imports and counts the
    lines the scanner delivered after the marker, and then returns
    ["reading standard input: <error>"], however many inserts failed. *)
Theorem Import_read_error_first (fuel : nat) (i : Importer) (w : World)
    (err : string) (r : option string) (i' : Importer) (w' : World) :
  new_client_err e = None -> ping_err e = None ->
  Path (config i) <> EmptyString -> open_err e = None ->
  (Compressed (config i) = true -> gzip_err e = None) ->
  scan_err (input e) = Some err ->
  elems (batch i) = [] -> totalInserts i = 0 -> failedInserts i = 0 ->
  count_data (tokens (snd (processDDL i (input e)))) <= int_max ->
  Import e fuel i w = Done (r, i', w') ->
  r = Some ("reading standard input: " ++ err)
  /\ totalInserts i' + failedInserts i'
     = count_data (tokens (snd (processDDL i (input e)))).
Proof.
  intros Hcl Hping Hpath Hopen Hgz Herr Hbat Ht Hf Hle H.
  assert (Hgz' : (if Compressed (config i) then gzip_err e else None) = None)
    by (destruct (Compressed (config i)); auto).
  apply Import_inv in H; try assumption.
  destruct H as (w2 & sc' & Hp & _ & ->). rewrite Herr.
  split; [reflexivity|].
  destruct (processDDL_frame i (input e)) as [Hfst _].
  assert (Hlen : len (batch i) = 0) by (unfold len; now rewrite Hbat).
  rewrite Hfst in Hp.
  apply processDML_accounting in Hp;
    cbn [totalInserts failedInserts batch set_lastWrite
         set_createDatabaseQuery] in *; rewrite ?Ht, ?Hf, ?Hlen in *;
    unfold batchSize; lia.
Qed.

Lemma summary_trace (i : Importer) (w : World) :
  trace (summary i w)
  = (trace w
       ++ (if 0 <? totalInserts i
           then [EvLog (LogSummary (totalCommands i) (totalInserts i)
                          (failedInserts i))]
           else []))%list.
Proof.
  unfold summary. destruct (0 <? totalInserts i); cbn;
    [reflexivity|now rewrite app_nil_r].
Qed.

(** X3: once past the checks of the client, the ping and the path, [Import]
    closes with the summary of its final counters exactly when at least one
    insert succeeded: the summary is then the last thing in the trace, and
    it appears nowhere else.  When every insert failed, or the file could
    not be opened, nothing is summarised. *)
Theorem Import_summary (fuel : nat) (i : Importer) (w : World)
    (r : option string) (i' : Importer) (w' : World) :
  new_client_err e = None -> ping_err e = None ->
  Path (config i) <> EmptyString ->
  Import e fuel i w = Done (r, i', w') ->
  exists tr,
    trace w' =
      (trace w ++ tr
         ++ (if 0 <? totalInserts i'
             then [EvLog (LogSummary (totalCommands i') (totalInserts i')
                            (failedInserts i'))]
             else []))%list
    /\ Forall (fun ev => is_summary ev = false) tr.
Proof.
  intros Hcl Hping Hpath H.
  destruct (open_err e) as [oerr|] eqn:Hopen.
  { unfold Import in H. apply String.eqb_neq in Hpath.
    rewrite Hcl, Hping, Hpath, Hopen in H. injection H as _ <- <-.
    exists []. rewrite summary_trace. split; [reflexivity|constructor]. }
  destruct (if Compressed (config i) then gzip_err e else None)
    as [gerr|] eqn:Hgz.
  { unfold Import in H. apply String.eqb_neq in Hpath.
    rewrite Hcl, Hping, Hpath, Hopen, Hgz in H. injection H as _ <- <-.
    exists []. rewrite summary_trace. split; [reflexivity|constructor]. }
  apply Import_inv in H; try assumption.
  destruct H as (w2 & sc' & Hp & -> & _).
  pose proof (processDML_events_gen e (fun ev => is_summary ev = false)
                (fun _ _ => True) (fun _ => eq_refl) eq_refl
                (fun _ => eq_refl) (fun _ => eq_refl) (fun _ _ => eq_refl)
                (fun _ => eq_refl) (fun _ _ _ _ _ _ _ => eq_refl)
                _ _ _ _ _ _ _ _ _ (fun _ _ _ _ _ => I) I Hp)
    as (_ & tr & Ht & Hall).
  rewrite summary_trace, Ht. cbn [trace time_Now snd].
  match goal with
  | |- context [((trace w ++ [?now]) ++ ?query :: tr)%list] =>
      exists (now :: query :: tr)
  end.
  split.
  - repeat (rewrite <- app_assoc || rewrite <- app_comm_cons). reflexivity.
  - constructor; [reflexivity|]. constructor; [reflexivity|exact Hall].
Qed.

End Reports.

(** ** The limit: none, or negative *)

Section Limit.

Variable e : Env.

Lemma batchWrite_unlimited (fuel : nat) (i : Importer) (w : World) :
  PPS (config i) = 0 ->
  batchWrite e (S fuel) i w = Done (write_out e i (snd (time_Now e w))).
Proof.
  intros H. now rewrite batchWrite_unfold, unlimited_not_throttled.
Qed.

(** Without a limit a flush adds no tick to the trace. *)
Lemma batchWrite_no_tick (fuel : nat) (i : Importer) (w : World)
    (i' : Importer) (w' : World) :
  PPS (config i) = 0 ->
  batchWrite e fuel i w = Done (i', w') ->
  exists tr, trace w' = (trace w ++ tr)%list
             /\ Forall (fun ev => is_tick ev = false) tr.
Proof.
  intros Hpps H. apply batchWrite_run in H.
  destruct H as (k & _ & Hlt & _ & _ & Ht).
  assert (Hk : k = 0%nat).
  { destruct k as [|k]; [reflexivity|].
    specialize (Hlt 0%nat ltac:(lia)).
    now rewrite unlimited_not_throttled in Hlt. }
  subst k. cbn [wait_events app] in Ht.
  eexists. split; [exact Ht|].
  constructor; [reflexivity|]. constructor; [reflexivity|].
  apply Forall_app. split.
  - destruct (write_answer e i w); repeat constructor.
  - repeat constructor.
Qed.

Lemma batchAccumulator_no_tick (fuel : nat) (i : Importer) (w : World)
    (line : string) (start : Time) (i' : Importer) (w' : World) :
  PPS (config i) = 0 ->
  batchAccumulator e fuel i w line start = Done (i', w') ->
  exists tr, trace w' = (trace w ++ tr)%list
             /\ Forall (fun ev => is_tick ev = false) tr.
Proof.
  intros Hpps H. apply batchAccumulator_cases in H. cbv zeta in H.
  destruct H as [(_ & _ & ->)|(_ & i2 & w2 & Hb & _ & Hw)].
  - exists []. now rewrite app_nil_r.
  - apply batchWrite_no_tick in Hb; [|exact Hpps].
    destruct Hb as (tr & Ht & Hall).
    destruct Hw as [[_ ->]|(_ & since & Ht' & _)].
    + eauto.
    + rewrite Ht', Ht, <- app_assoc. eexists. split; [reflexivity|].
      apply Forall_app. split; [exact Hall|]. repeat constructor.
Qed.

Lemma scanDML_no_tick (fuel : nat) (dbo rpo : string) (start : Time)
    (lines : list string) (i : Importer) (w : World)
    (i' : Importer) (w' : World) :
  PPS (config i) = 0 ->
  scanDML e fuel dbo rpo start lines i w = Done (i', w') ->
  exists tr, trace w' = (trace w ++ tr)%list
             /\ Forall (fun ev => is_tick ev = false) tr.
Proof.
  intros Hpps H.
  pose (P := fun (_ : Z) (j : Importer) (v : World) =>
    config j = config i
    /\ exists tr, trace v = (trace w ++ tr)%list
                  /\ Forall (fun ev => is_tick ev = false) tr).
  apply (scanDML_invariant e P fuel dbo rpo start) with (n := 0) in H.
  - apply H.
  - intros n j v line j1 Hj Hc. rewrite apply_context_eq in Hc.
    injection Hc as <-. exact Hj.
  - intros n j v line j' v' _ (Hc & tr & Ht & Hall) Ha.
    pose proof (batchAccumulator_same e _ _ _ _ _ _ _ Ha) as (_ & _ & Hc' & _).
    apply batchAccumulator_no_tick in Ha; [|now rewrite Hc].
    destruct Ha as (tr' & Ht' & Hall'). split; [congruence|].
    exists (tr ++ tr')%list. rewrite Ht', Ht, app_assoc.
    split; [reflexivity|]. now apply Forall_app.
  - split; [reflexivity|]. exists []. now rewrite app_nil_r.
Qed.

Lemma scanDML_unlimited (fuel : nat) (dbo rpo : string) (start : Time)
    (lines : list string) (i : Importer) (w : World) :
  PPS (config i) = 0 ->
  exists i' w',
    scanDML e (S fuel) dbo rpo start lines i w = Done (i', w')
    /\ config i' = config i.
Proof.
  revert i w. induction lines as [|line rest IH]; intros i w Hpps.
  - exists i, w. auto.
  - rewrite scanDML_cons, apply_context_eq. cbn [bind].
    set (i1 := set_retentionPolicy _ _).
    assert (Hc1 : config i1 = config i) by reflexivity.
    destruct (is_data line).
    + destruct (batchAccumulator_unlimited e fuel i1 w line start)
        as [[i2 w2] Ha]; [now rewrite Hc1|].
      pose proof (batchAccumulator_same e _ _ _ _ _ _ _ Ha) as (_ & _ & Hc2 & _).
      rewrite Ha. cbn [bind].
      destruct (IH i2 w2) as (i' & w' & Hs & Hc3); [congruence|].
      exists i', w'. split; [exact Hs|congruence].
    + destruct (IH i1 w) as (i' & w' & Hs & Hc3); [congruence|].
      exists i', w'. split; [exact Hs|congruence].
Qed.

(** X8: with no limit configured ([PPS = 0]) the second phase needs no
    help from the clock: it returns, with one unit of fuel, whatever the
    clock reads and whatever the transport answers, and it never waits for
    a tick. *)
Theorem processDML_unlimited (fuel : nat) (i : Importer) (scanner : Scanner)
    (w : World) (dbo rpo : string) :
  PPS (config i) = 0 ->
  exists i' scanner' w',
    processDML e (S fuel) i scanner w dbo rpo = Done (i', scanner', w')
    /\ exists tr, trace w' = (trace w ++ tr)%list
                  /\ Forall (fun ev => is_tick ev = false) tr.
Proof.
  intros Hpps. rewrite processDML_unfold.
  pose proof (dml_setup_fields e i w dbo rpo) as Hf.
  pose proof (dml_setup_exact e i w dbo rpo) as Hs.
  destruct (dml_setup e i w dbo rpo) as [[i1 w1] start].
  destruct Hf as (Hc1 & _).
  destruct Hs as (_ & _ & _ & _ & _ & _ & tr0 & Ht0 & Hlog).
  destruct (scanDML_unlimited fuel dbo rpo start (tokens scanner) i1 w1)
    as (i2 & w2 & Hscan & Hc2); [congruence|].
  rewrite Hscan. cbn [bind].
  rewrite batchWrite_unlimited by congruence.
  destruct (write_out e i2 (snd (time_Now e w2))) as [i3 w3] eqn:Hout.
  cbn [bind]. exists i3, {| tokens := []; scan_err := scan_err scanner |}, w3.
  split; [reflexivity|].
  apply scanDML_no_tick in Hscan; [|congruence].
  destruct Hscan as (tr1 & Ht1 & Hall1).
  assert (Hb : batchWrite e 1 i2 w2 = Done (i3, w3))
    by (rewrite batchWrite_unlimited, Hout by congruence; reflexivity).
  apply batchWrite_no_tick in Hb; [|congruence].
  destruct Hb as (tr2 & Ht2 & Hall2).
  exists ((EvQuery (createDatabaseQuery i1) (database i1)
             :: tr0 ++ [EvNow start]) ++ tr1 ++ tr2)%list.
  split.
  - rewrite Ht2, Ht1, Ht0.
    repeat (rewrite <- app_assoc || rewrite <- app_comm_cons). reflexivity.
  - repeat (apply Forall_app; split); auto.
    constructor; [reflexivity|]. apply Forall_app. split.
    + destruct Hlog as [->|[err ->]]; repeat constructor.
    + repeat constructor.
Qed.

(** Readiness is kept over the loop. *)
Lemma scanDML_ready (fuel : nat) (dbo rpo : string) (start : Time)
    (lines : list string) (i : Importer) (w : World)
    (i' : Importer) (w' : World) :
  scanDML e fuel dbo rpo start lines i w = Done (i', w') ->
  ready i -> ready i'.
Proof.
  intros H Hr.
  apply (scanDML_invariant e (fun _ j _ => ready j) fuel dbo rpo start)
    with (n := 0) in H; [exact H| | |exact Hr].
  - intros n j v line j1 Hj Hc. rewrite apply_context_eq in Hc.
    injection Hc as <-. exact Hj.
  - intros n j v line j' v' _ Hj Ha.
    exact (batchAccumulator_ready e _ _ _ _ _ _ _ Ha Hj).
Qed.

(** Under a negative limit every rate check of a ready importer fails, as
    long as the rate of a non-negative count is never negative. *)
Lemma negative_limit_throttled (i : Importer) (w : World) (j : nat) :
  PPS (config i) < 0 -> ready i ->
  (forall points since,
     0 <= points -> 0 < since -> 0 <= rate_of e points since) ->
  throttled_at e i w j = true.
Proof.
  intros Hneg [Hz Hroom] Hrate.
  unfold throttled_at, over_limit, currentPPS, accumulated.
  rewrite Hz, Z.add_0_l.
  pose proof (len_nonneg (batch i)) as Hl.
  rewrite wrap_in_range
    by (unfold in_range, int_min, int_max, batchSize in *; lia).
  apply andb_true_iff. split.
  - apply Z.ltb_lt.
    destruct (Z.ltb_spec 0 (Sub (now_at e (clock_reads w + j)) (lastWrite i)))
      as [Hpos|_]; [|lia].
    specialize (Hrate _ _ Hl Hpos). lia.
  - apply negb_true_iff, Z.eqb_neq. lia.
Qed.

(** X9: a negative limit is a limit too (the test is [PPS != 0]), and one
    that no rate can meet: as long as the environment never reports a
    negative rate for a non-negative count, every rate check fails, so
    neither a single flush nor the second phase as a whole ever returns,
    whatever fuel is granted. *)
Theorem negative_limit_never_returns (fuel : nat) (i : Importer)
    (scanner : Scanner) (w : World) (dbo rpo : string) :
  PPS (config i) < 0 -> ready i ->
  (forall points since,
     0 <= points -> 0 < since -> 0 <= rate_of e points since) ->
  batchWrite e fuel i w = OutOfFuel
  /\ processDML e fuel i scanner w dbo rpo = OutOfFuel.
Proof.
  intros Hneg Hready Hrate. split.
  - apply batchWrite_starves. intros j.
    now apply negative_limit_throttled.
  - rewrite processDML_unfold.
    pose proof (dml_setup_fields e i w dbo rpo) as Hf.
    destruct (dml_setup e i w dbo rpo) as [[i1 w1] start].
    destruct Hf as (Hc1 & Hb1 & _ & _ & Hz1 & _).
    assert (Hready1 : ready i1)
      by (destruct Hready; split; congruence).
    destruct (scanDML e fuel dbo rpo start (tokens scanner) i1 w1)
      as [[i2 w2]|msg|] eqn:Hscan; cbn [bind].
    + pose proof (scanDML_ready _ _ _ _ _ _ _ _ _ Hscan Hready1) as Hready2.
      apply scanDML_same in Hscan. destruct Hscan as (Hc2 & _).
      rewrite batchWrite_starves; [reflexivity|].
      intros j. apply negative_limit_throttled; [congruence|exact Hready2|].
      exact Hrate.
    + now apply scanDML_no_panic in Hscan.
    + reflexivity.
Qed.

End Limit.

(** ** What is written: the data lines, in order, batch by batch *)

Section Batches.

Variable e : Env.

Lemma write_bodies_app (a b : list event) :
  write_bodies (a ++ b) = (write_bodies a ++ write_bodies b)%list.
Proof. apply flat_map_app. Qed.

Lemma write_bodies_wait (n k : nat) : write_bodies (wait_events e n k) = [].
Proof. revert n. induction k as [|k IH]; intros n; cbn; auto. Qed.

(** A flush adds one body: the lines of the batch, joined. *)
Lemma batchWrite_bodies (fuel : nat) (i : Importer) (w : World)
    (i' : Importer) (w' : World) :
  batchWrite e fuel i w = Done (i', w') ->
  write_bodies (trace w')
  = (write_bodies (trace w) ++ [Join (elems (batch i)) newline])%list.
Proof.
  intros H. apply batchWrite_run in H.
  destruct H as (k & _ & _ & _ & _ & Ht). rewrite Ht.
  rewrite !write_bodies_app, write_bodies_wait. cbn [app].
  change (EvNow ?t :: ?x :: ?l)%list with ([EvNow t; x] ++ l)%list.
  rewrite !write_bodies_app. unfold the_write at 1. cbn [write_bodies flat_map app].
  destruct (write_answer e i w); cbn; reflexivity.
Qed.

Lemma batchAccumulator_bodies (fuel : nat) (i : Importer) (w : World)
    (line : string) (start : Time) (i' : Importer) (w' : World) :
  batchAccumulator e fuel i w line start = Done (i', w') ->
  (len (batch i) + 1 <> batchSize
   /\ elems (batch i') = (elems (batch i) ++ [line])%list /\ w' = w)
  \/ (len (batch i) + 1 = batchSize
      /\ elems (batch i') = []
      /\ write_bodies (trace w')
         = (write_bodies (trace w)
              ++ [Join (elems (batch i) ++ [line]) newline])%list).
Proof.
  intros H. apply batchAccumulator_cases in H. cbv zeta in H.
  destruct H as [(Hne & -> & ->)|(Heq & i2 & w2 & Hb & -> & Hw)].
  - left. cbn. now rewrite append_elems.
  - right. split; [exact Heq|]. split; [reflexivity|].
    apply batchWrite_bodies in Hb. cbn [batch set_batch] in Hb.
    rewrite append_elems in Hb.
    destruct Hw as [[_ ->]|(_ & since & Ht & _)]; [exact Hb|].
    rewrite Ht, write_bodies_app, Hb. cbn. now rewrite app_nil_r.
Qed.

(** Over the loop: the bodies written are full batches, and together with
    what is left in the batch they are what the batch held plus the data
    lines read, in order. *)
Lemma scanDML_bodies (fuel : nat) (dbo rpo : string) (start : Time)
    (lines : list string) :
  forall (i : Importer) (w : World) (i' : Importer) (w' : World),
  scanDML e fuel dbo rpo start lines i w = Done (i', w') ->
  len (batch i) < batchSize ->
  len (batch i') < batchSize
  /\ exists batches,
       write_bodies (trace w')
       = (write_bodies (trace w)
            ++ map (fun b => Join b newline) batches)%list
       /\ (List.concat batches ++ elems (batch i')
           = elems (batch i) ++ filter is_data lines)%list
       /\ Forall (fun b => Z.of_nat (List.length b) = batchSize) batches.
Proof.
  induction lines as [|line rest IH]; intros i w i' w' H Hlen.
  - cbn in H. injection H as <- <-. split; [exact Hlen|].
    exists []. cbn. now rewrite !app_nil_r.
  - rewrite scanDML_cons, apply_context_eq in H. cbn [bind] in H.
    set (i1 := set_retentionPolicy _ _) in H.
    assert (Hb1 : batch i1 = batch i) by reflexivity.
    cbn [filter]. destruct (is_data line).
    + destruct (batchAccumulator e fuel i1 w line start) as [[i2 w2]| |] eqn:Ha;
        cbn [bind] in H; try discriminate.
      apply batchAccumulator_bodies in Ha. rewrite Hb1 in Ha.
      destruct Ha as [(Hne & He & ->)|(Heq & He & Hw)].
      * assert (Hlen2 : len (batch i2) < batchSize).
        { unfold len in *. rewrite He, length_app. cbn [List.length]. lia. }
        destruct (IH _ _ _ _ H Hlen2) as (Hl & batches & Hbod & Hcat & Hall).
        split; [exact Hl|]. exists batches. split; [exact Hbod|].
        split; [|exact Hall]. rewrite Hcat, He, <- app_assoc. reflexivity.
      * assert (Hlen2 : len (batch i2) < batchSize).
        { unfold len. rewrite He. unfold batchSize. cbn. lia. }
        destruct (IH _ _ _ _ H Hlen2) as (Hl & batches & Hbod & Hcat & Hall).
        split; [exact Hl|]. exists ((elems (batch i) ++ [line]) :: batches)%list.
        split; [|split].
        -- rewrite Hbod, Hw, <- app_assoc. reflexivity.
        -- cbn [List.concat]. rewrite <- !app_assoc. rewrite Hcat, He. reflexivity.
        -- constructor; [|exact Hall].
           rewrite length_app. cbn [List.length]. unfold len in Heq. lia.
    + exact (IH _ _ _ _ H Hlen).
Qed.

(** The same for the whole second phase, whose closing flush writes what
    is left. *)
Lemma processDML_bodies (fuel : nat) (i : Importer) (scanner : Scanner)
    (w : World) (dbo rpo : string) (i' : Importer) (scanner' : Scanner)
    (w' : World) :
  processDML e fuel i scanner w dbo rpo = Done (i', scanner', w') ->
  len (batch i) < batchSize ->
  exists batches rest,
    write_bodies (trace w')
    = (write_bodies (trace w)
         ++ map (fun b => Join b newline) (batches ++ [rest]))%list
    /\ (List.concat batches ++ rest
        = elems (batch i) ++ filter is_data (tokens scanner))%list
    /\ Forall (fun b => Z.of_nat (List.length b) = batchSize) batches
    /\ Z.of_nat (List.length rest) < batchSize.
Proof.
  intros H Hlen. apply processDML_inv in H.
  destruct H as (i1 & w1 & start & i2 & w2 & Hsetup & Hscan & Hb & _).
  pose proof (dml_setup_fields e i w dbo rpo) as Hf.
  pose proof (dml_setup_exact e i w dbo rpo) as Hs.
  rewrite Hsetup in Hf, Hs.
  destruct Hf as (_ & Hb1 & _).
  destruct Hs as (_ & _ & _ & _ & _ & _ & tr0 & Ht0 & Hlog).
  apply scanDML_bodies in Hscan; [|now rewrite Hb1].
  destruct Hscan as (Hl2 & batches & Hbod & Hcat & Hall).
  apply batchWrite_bodies in Hb.
  exists batches, (elems (batch i2)).
  split; [|split; [|split]].
  - rewrite Hb, Hbod, Ht0, map_app, !write_bodies_app. cbn [map].
    rewrite <- !app_assoc. f_equal.
    destruct Hlog as [->|[err ->]]; reflexivity.
  - now rewrite Hcat, Hb1.
  - exact Hall.
  - exact Hl2.
Qed.

(** X7: the writes of the second phase carry exactly the data lines, each
    once and in the order of the stream: the bodies written are the batch
    the importer started with followed by the data lines of the stream, cut
    into batches of [batchSize] lines and a last, shorter one (possibly
    empty, and still written), each joined by line feeds.  Comment lines and
    blank lines are never written. *)
Theorem processDML_writes_data_lines_in_order (fuel : nat) (i : Importer)
    (scanner : Scanner) (w : World) (dbo rpo : string)
    (i' : Importer) (scanner' : Scanner) (w' : World) :
  len (batch i) < batchSize ->
  processDML e fuel i scanner w dbo rpo = Done (i', scanner', w') ->
  exists batches rest,
    write_bodies (trace w')
    = (write_bodies (trace w)
         ++ map (fun b => Join b newline) (batches ++ [rest]))%list
    /\ (List.concat batches ++ rest
        = elems (batch i) ++ filter is_data (tokens scanner))%list
    /\ Forall (fun b => Z.of_nat (List.length b) = batchSize) batches
    /\ Z.of_nat (List.length rest) < batchSize.
Proof. intros Hlen H. exact (processDML_bodies _ _ _ _ _ _ _ _ _ H Hlen). Qed.

End Batches.

(** ** Context lines and the batch they find *)

Section Context.

Variable e : Env.



End Context.

(** ** The status reports *)




Section Status.

Variable e : Env.







End Status.

(** ** The first phase, in pieces *)

Lemma last_app_default (a b : list string) (d : string) :
  last (a ++ b) d = last b (last a d).
Proof.
  revert d. induction a as [|x a IH]; intros d; [reflexivity|].
  change ((x :: a) ++ b)%list with (x :: (a ++ b))%list.
  now rewrite !last_cons, IH.
Qed.

Lemma last_twice (l : list string) (d : string) :
  last (l ++ l) d = last l d.
Proof.
  rewrite last_app_default. destruct l as [|x l]; [reflexivity|].
  now rewrite !last_cons.
Qed.

(** Lines without the marker only move the captured command along. *)
Lemma scanDDL_app (l1 l2 : list string) (query : string) :
  (forall l, In l l1 -> HasPrefix l "# DML" = false) ->
  scanDDL (l1 ++ l2) query = scanDDL l2 (last (filter is_data l1) query).
Proof.
  revert query.
  induction l1 as [|line l1 IH]; intros query Hall; [reflexivity|].
  cbn [app scanDDL]. rewrite (Hall line) by now left.
  assert (Hall' : forall l, In l l1 -> HasPrefix l "# DML" = false)
    by (intros l Hl; apply Hall; now right).
  cbn [filter]. unfold is_data at 1.
  destruct (HasPrefix line "#"); cbn [negb andb]; [now apply IH|].
  destruct (String.eqb (TrimSpace line) EmptyString); cbn [negb];
    [now apply IH|].
  rewrite last_cons. now apply IH.
Qed.

(** X11: the first phase can be run in pieces, and is insensitive to
    repetition.  Reading a stretch of lines without the marker and then the
    rest gives the same command and the same remaining lines as reading
    them in one go; and a stretch that appears twice in a row captures what
    it captures once. *)
Theorem processDDL_resumes_and_repeats (i : Importer) (l1 l2 : list string)
    (err : option string) :
  (forall l, In l l1 -> HasPrefix l "# DML" = false) ->
  processDDL i {| tokens := l1 ++ l2; scan_err := err |}
  = processDDL (fst (processDDL i {| tokens := l1; scan_err := err |}))
      {| tokens := l2; scan_err := err |}
  /\ processDDL i {| tokens := l1 ++ l1 ++ l2; scan_err := err |}
     = processDDL i {| tokens := l1 ++ l2; scan_err := err |}.
Proof.
  intros Hall. unfold processDDL. cbn [tokens scan_err].
  rewrite (scanDDL_app l1 (l1 ++ l2)), !(scanDDL_app l1 l2) by exact Hall.
  rewrite (scanDDL_no_marker l1) by exact Hall.
  cbn [fst createDatabaseQuery set_createDatabaseQuery].
  rewrite <- last_app_default, last_twice. split; [|reflexivity].
  destruct (scanDDL l2 (last (filter is_data l1) (createDatabaseQuery i))).
  destruct i; reflexivity.
Qed.

(** ** Bodies that can be split back *)

Lemma Split_Join (ls : list string) (sep : ascii) :
  ls <> [] -> Forall (fun l => free_of sep l = true) ls ->
  Split (Join ls (String sep EmptyString)) sep = ls.
Proof.
  unfold Join. induction ls as [|x ls IH]; intros Hne Hall; [congruence|].
  inversion Hall as [|? ? Hx Hrest]; subst.
  destruct ls as [|y ls].
  - cbn. now apply Split_free.
  - change (String.concat (String sep EmptyString) (x :: y :: ls))
      with (x ++ String sep (String.concat (String sep EmptyString) (y :: ls))).
    rewrite Split_app_sep by exact Hx. f_equal.
    apply IH; [discriminate|exact Hrest].
Qed.

Section Bodies.

Variable e : Env.

(** X13: the body of a write can be split back into the lines of the
    batch.  A flush of a batch that is not empty, none of whose lines holds
    a line feed (the scanner delivers none that does), writes a body whose
    split at the line feeds is the batch, line for line; the flush of an
    empty batch writes the empty body. *)
Theorem batchWrite_body_splits_back (fuel : nat) (i : Importer) (w : World)
    (i' : Importer) (w' : World) :
  batchWrite e fuel i w = Done (i', w') ->
  Forall (fun l => free_of (byte 10) l = true) (elems (batch i)) ->
  exists body,
    write_bodies (trace w') = (write_bodies (trace w) ++ [body])%list
    /\ (elems (batch i) <> [] -> Split body (byte 10) = elems (batch i))
    /\ (elems (batch i) = [] -> body = EmptyString).
Proof.
  intros H Hall. apply batchWrite_bodies in H.
  exists (Join (elems (batch i)) newline). split; [exact H|]. split.
  - intros Hne. now apply Split_Join.
  - intros ->. reflexivity.
Qed.

End Bodies.

(** ** The two phases together *)

Section WholeRun.

Variable e : Env.

Lemma write_bodies_summary (i : Importer) (w : World) :
  write_bodies (trace (summary i w)) = write_bodies (trace w).
Proof.
  rewrite summary_trace, write_bodies_app.
  destruct (0 <? totalInserts i); cbn; now rewrite app_nil_r.
Qed.

(** X12: of the whole input, [Import] writes the data lines that follow
    the first marker line and nothing else: the lines of the schema section
    are never written, whatever they look like.  The command it queries is
    the one the first phase captured before the marker (or the override's
    [CREATE DATABASE]), and it is queried before any context line has been
    read, against the database the importer held at the start. *)
Theorem Import_writes_lines_after_marker (fuel : nat) (i : Importer)
    (w : World) (r : option string) (i' : Importer) (w' : World) :
  new_client_err e = None -> ping_err e = None ->
  Path (config i) <> EmptyString -> open_err e = None ->
  (Compressed (config i) = true -> gzip_err e = None) ->
  len (batch i) < batchSize ->
  Import e fuel i w = Done (r, i', w') ->
  let captured := scanDDL (tokens (input e)) (createDatabaseQuery i) in
  let dbo := DestinationDatabase (config i) in
  (exists batches rest,
     write_bodies (trace w')
     = (write_bodies (trace w)
          ++ map (fun b => Join b newline) (batches ++ [rest]))%list
     /\ (List.concat batches ++ rest
         = elems (batch i) ++ filter is_data (snd captured))%list
     /\ Forall (fun b => Z.of_nat (List.length b) = batchSize) batches
     /\ Z.of_nat (List.length rest) < batchSize)
  /\ In (EvQuery (if String.eqb dbo EmptyString then fst captured
                  else "CREATE DATABASE " ++ dbo)
           (if String.eqb dbo EmptyString then database i else dbo))
        (trace w').
Proof.
  intros Hcl Hping Hpath Hopen Hgz Hlen H. cbv zeta.
  assert (Hgz' : (if Compressed (config i) then gzip_err e else None) = None)
    by (destruct (Compressed (config i)); auto).
  apply Import_inv in H; try assumption.
  destruct H as (w2 & sc' & Hp & -> & _).
  destruct (processDDL_frame i (input e)) as [Hfst Htok].
  rewrite Hfst in Hp. split.
  - apply processDML_bodies in Hp; [|exact Hlen].
    destruct Hp as (batches & rest & Hbod & Hcat & Hall & Hrest).
    exists batches, rest. rewrite write_bodies_summary, Hbod.
    cbn [time_Now snd trace]. rewrite write_bodies_app. cbn [write_bodies flat_map].
    rewrite app_nil_r. rewrite Htok in Hcat. auto.
  - pose proof (processDML_events_gen e (fun _ => True) (fun _ _ => True)
                  (fun _ => I) I (fun _ => I) (fun _ => I) (fun _ _ => I)
                  (fun _ => I) (fun _ _ _ _ _ _ _ => I)
                  _ _ _ _ _ _ _ _ _ (fun _ _ _ _ _ => I) I Hp)
      as (_ & tr & Ht & _).
    rewrite summary_trace, Ht. apply in_or_app. left.
    apply in_or_app. right. left. reflexivity.
Qed.

End WholeRun.

(** ** The further properties at work on examples *)

Lemma Import_nil_means_success_witness :
  (exists i' w',
     Import accepting_env 3 sample_importer world0 = Done (None, i', w')
     /\ failedInserts i' <= 0)
  /\ exists msg,
       Import unreachable_env 3 sample_importer world0
       = Done (Some msg, sample_importer, world0).
Proof.
  split.
  - destruct (Import_nil_means_success accepting_env 3 sample_importer world0)
      as [Hnil _].
    destruct (Import accepting_env 3 sample_importer world0)
      as [[[[msg|] i'] w']| |] eqn:Hrun.
    + refute_run Hrun.
    + exists i', w'. split; [reflexivity|].
      apply (Hnil i' w' eq_refl).
    + refute_run Hrun.
    + refute_run Hrun.
  - destruct (Import_nil_means_success unreachable_env 3 sample_importer world0)
      as [_ Hfail].
    apply Hfail. right. left. discriminate.
Defined.

Lemma Import_read_error_first_witness :
  exists r i' w',
    Import read_error_env 3 sample_importer world0 = Done (r, i', w')
    /\ r = Some "reading standard input: unexpected EOF"
    /\ totalInserts i' + failedInserts i' = 3.
Proof.
  destruct (Import read_error_env 3 sample_importer world0)
    as [[[r i'] w']| |] eqn:Hrun.
  - exists r, i', w'. split; [reflexivity|].
    exact (Import_read_error_first read_error_env 3 sample_importer world0
             "unexpected EOF" r i' w' eq_refl eq_refl ltac:(discriminate)
             eq_refl (fun _ => eq_refl) eq_refl eq_refl eq_refl eq_refl
             ltac:(vm_compute; congruence) Hrun).
  - refute_run Hrun.
  - refute_run Hrun.
Defined.

Lemma Import_summary_witness :
  exists r i' w' tr,
    Import accepting_env 3 sample_importer world0 = Done (r, i', w')
    /\ trace w' = (tr ++ [EvLog (LogSummary 1 3 0)])%list.
Proof.
  destruct (Import accepting_env 3 sample_importer world0)
    as [[[r i'] w']| |] eqn:Hrun.
  - destruct (Import_summary accepting_env 3 sample_importer world0 r i' w'
                eq_refl eq_refl ltac:(discriminate) Hrun) as (tr & Ht & _).
    exists r, i', w', tr. split; [reflexivity|].
    vm_compute in Hrun. injection Hrun as _ <- _. exact Ht.
  - refute_run Hrun.
  - refute_run Hrun.
Defined.

Lemma processDML_single_query_witness :
  exists i' scanner' w' tr,
    processDML accepting_env 3 sample_importer sample_scanner world0
      EmptyString EmptyString = Done (i', scanner', w')
    /\ totalCommands i' = 1
    /\ trace w' = (EvQuery EmptyString EmptyString :: tr)%list.
Proof.
  destruct (processDML accepting_env 3 sample_importer sample_scanner world0
              EmptyString EmptyString) as [[[i' scanner'] w']| |] eqn:Hrun.
  - destruct (processDML_single_query accepting_env 3 sample_importer
                sample_scanner world0 EmptyString EmptyString i' scanner' w'
                Hrun) as (Hc & _ & tr & Ht & _).
    exists i', scanner', w', tr. split; [reflexivity|].
    split; [exact Hc|exact Ht].
  - refute_run Hrun.
  - refute_run Hrun.
Defined.

Lemma processDML_retention_policy_override_witness :
  exists i' scanner' w',
    processDML accepting_env 3 policy_importer switching_scanner world0
      EmptyString "weekly" = Done (i', scanner', w')
    /\ retentionPolicy i' = "weekly"
    /\ Forall (writes_with_policy "weekly") (trace w').
Proof.
  destruct (processDML accepting_env 3 policy_importer switching_scanner world0
              EmptyString "weekly") as [[[i' scanner'] w']| |] eqn:Hrun.
  - destruct (processDML_retention_policy_override accepting_env 3
                policy_importer switching_scanner world0 EmptyString "weekly"
                i' scanner' w' ltac:(discriminate) Hrun)
      as (Hr & tr & Ht & Hall).
    exists i', scanner', w'. split; [reflexivity|]. split; [exact Hr|].
    rewrite Ht. exact Hall.
  - refute_run Hrun.
  - refute_run Hrun.
Defined.


Lemma processDML_writes_data_lines_in_order_witness :
  exists i' scanner' w' batches rest,
    processDML refusing_env 3 sample_importer sample_scanner world0
      EmptyString EmptyString = Done (i', scanner', w')
    /\ write_bodies (trace w')
       = map (fun b => Join b newline) (batches ++ [rest])
    /\ (List.concat batches ++ rest
        = ["m,t=1 v=1 0"; "m,t=2 v=2 1"])%list.
Proof.
  destruct (processDML refusing_env 3 sample_importer sample_scanner world0
              EmptyString EmptyString) as [[[i' scanner'] w']| |] eqn:Hrun.
  - destruct (processDML_writes_data_lines_in_order refusing_env 3
                sample_importer sample_scanner world0 EmptyString EmptyString
                i' scanner' w' ltac:(vm_compute; reflexivity) Hrun)
      as (batches & rest & Hbod & Hcat & _).
    exists i', scanner', w', batches, rest.
    split; [reflexivity|]. split; [exact Hbod|exact Hcat].
  - refute_run Hrun.
  - refute_run Hrun.
Defined.

Lemma processDML_unlimited_witness :
  exists i' scanner' w',
    processDML refusing_env 1 unlimited_importer sample_scanner world0
      EmptyString EmptyString = Done (i', scanner', w')
    /\ Forall (fun ev => is_tick ev = false) (trace w').
Proof.
  destruct (processDML_unlimited refusing_env 0 unlimited_importer
              sample_scanner world0 EmptyString EmptyString eq_refl)
    as (i' & scanner' & w' & Hrun & tr & Ht & Hall).
  exists i', scanner', w'. split; [exact Hrun|]. rewrite Ht. exact Hall.
Defined.

Lemma negative_limit_never_returns_witness :
  batchWrite accepting_env 1000 negative_importer world0 = OutOfFuel
  /\ processDML accepting_env 1000 negative_importer sample_scanner world0
       EmptyString EmptyString = OutOfFuel.
Proof.
  apply (negative_limit_never_returns accepting_env 1000 negative_importer
           sample_scanner world0 EmptyString EmptyString).
  - reflexivity.
  - split; reflexivity.
  - intros points since Hp Hs. cbn [rate_of accepting_env sample_env].
    apply Z.quot_pos; lia.
Defined.


Lemma processDDL_resumes_and_repeats_witness :
  processDDL sample_importer
    {| tokens := ["# DDL"; "CREATE DATABASE foo"; "# DDL";
                  "CREATE DATABASE foo"; "# DML"; "m,t=1 v=1 0"];
       scan_err := None |}
  = processDDL sample_importer
      {| tokens := ["# DDL"; "CREATE DATABASE foo"; "# DML"; "m,t=1 v=1 0"];
         scan_err := None |}.
Proof.
  refine (proj2 (processDDL_resumes_and_repeats sample_importer
                   ["# DDL"; "CREATE DATABASE foo"] ["# DML"; "m,t=1 v=1 0"]
                   None _)).
  intros l [<-|[<-|[]]]; reflexivity.
Defined.

Lemma Import_writes_lines_after_marker_witness :
  exists r i' w' batches rest,
    Import refusing_env 3 sample_importer world0 = Done (r, i', w')
    /\ write_bodies (trace w')
       = map (fun b => Join b newline) (batches ++ [rest])
    /\ (List.concat batches ++ rest
        = ["m,t=1 v=1 0"; "m,t=2 v=2 1"; "m,t=3 v=3 2"])%list
    /\ In (EvQuery "CREATE DATABASE foo" EmptyString) (trace w').
Proof.
  destruct (Import refusing_env 3 sample_importer world0)
    as [[[r i'] w']| |] eqn:Hrun.
  - destruct (Import_writes_lines_after_marker refusing_env 3 sample_importer
                world0 r i' w' eq_refl eq_refl ltac:(discriminate) eq_refl
                (fun _ => eq_refl) ltac:(vm_compute; reflexivity) Hrun)
      as ((batches & rest & Hbod & Hcat & _) & Hq).
    exists r, i', w', batches, rest.
    split; [reflexivity|]. split; [exact Hbod|]. split; [exact Hcat|exact Hq].
  - refute_run Hrun.
  - refute_run Hrun.
Defined.

Lemma batchWrite_body_splits_back_witness :
  exists i' w' body,
    batchWrite accepting_env 3 loaded_importer world0 = Done (i', w')
    /\ write_bodies (trace w') = [body]
    /\ Split body (byte 10) = ["m,t=1 v=1 0"; "m,t=2 v=2 1"].
Proof.
  destruct (batchWrite accepting_env 3 loaded_importer world0)
    as [[i' w']| |] eqn:Hrun.
  - destruct (batchWrite_body_splits_back accepting_env 3 loaded_importer
                world0 i' w' Hrun ltac:(repeat constructor))
      as (body & Hbod & Hsplit & _).
    exists i', w', body. split; [reflexivity|]. split; [exact Hbod|].
    apply Hsplit. discriminate.
  - refute_run Hrun.
  - refute_run Hrun.
Defined.
